(** * Instagram media downloader: a shallow embedding of
      [instagram_downloader.py] and the properties of its orchestration core.

    The script drives the [instaloader] library.  The library, the terminal
    and the file system are external collaborators: they are represented by
    an interface ([Env]) whose operations return a value or raise, and every
    theorem holds for every implementation of that interface.

    Conventions of the embedding.
    - A Python [str] is a [string]; its characters are code points below 256.
    - [print] appends one line to [stdout].
    - What the script writes on the standard error, through [parser.error],
      is appended to [stderr], one entry for each write; the traceback of an
      exception that nothing catches is not recorded.
    - An exception is a value of [exn]; [sys.exit(n)] is the outcome
      [Exited n], which no [except] clause of the script intercepts.
    - A user interrupt is the exception [KeyboardInterrupt] raised by a
      collaborator call.
    - The mutable [Instaloader] object is the [loader] field of the program
      state; every function that receives [loader] in the source reads and
      writes that field.
    - A profile's listing is a finite generator; the trace ([events]) records
      each element it hands out, each post fetched by shortcode and each
      call of [loader.download_post]. *)

From Stdlib Require Import String Ascii List ZArith Bool Lia NArith.
From Stdlib Require Import DecimalString.
Import ListNotations.
Open Scope string_scope.
Open Scope list_scope.

(* ================================================================== *)
(** * Strings *)
(* ================================================================== *)

Module Str.

(** [str.isspace] for one character, restricted to code points below 256:
    TAB..CR, FS..US, SPACE, NEL and NBSP. *)
Definition isspace (c : ascii) : bool :=
  let n := N_of_ascii c in
  ((9 <=? n) && (n <=? 13) || (28 <=? n) && (n <=? 32)
   || (n =? 133) || (n =? 160))%N.

Fixpoint lstrip (s : string) : string :=
  match s with
  | String c s' => if isspace c then lstrip s' else s
  | EmptyString => EmptyString
  end.

Fixpoint rstrip (s : string) : string :=
  match s with
  | String c s' =>
      match rstrip s' with
      | EmptyString => if isspace c then EmptyString else String c EmptyString
      | t => String c t
      end
  | EmptyString => EmptyString
  end.

(** [s.strip()] *)
Definition strip (s : string) : string := rstrip (lstrip s).

(** Truth value of a string: the empty string is false. *)
Definition truthy (s : string) : bool :=
  match s with EmptyString => false | _ => true end.

(** [c in s] *)
Fixpoint mem (c : ascii) (s : string) : bool :=
  match s with
  | String c' s' => Ascii.eqb c c' || mem c s'
  | EmptyString => false
  end.

Fixpoint forallb (p : ascii -> bool) (s : string) : bool :=
  match s with
  | String c s' => p c && forallb p s'
  | EmptyString => true
  end.

(** [s[:n]] *)
Fixpoint take (n : nat) (s : string) : string :=
  match n, s with
  | S n', String c s' => String c (take n' s')
  | _, _ => EmptyString
  end.

(** Rendering of an integer by an f-string. *)
Definition of_Z (z : Z) : string := NilZero.string_of_int (Z.to_int z).
Definition of_nat (n : nat) : string := of_Z (Z.of_nat n).

Definition newline : string := String (ascii_of_nat 10) EmptyString.

End Str.

(* ================================================================== *)
(** * The fragment of [re] used by the script *)
(* ================================================================== *)

Module Re.

(** Patterns.  [Plus] is restricted to a character class, the only
    repetition the script writes; [Group] is capture group 1. *)
Inductive regex : Type :=
| Eps
| Lit (c : ascii)
| Cls (p : ascii -> bool)
| Seq (r1 r2 : regex)
| Alt (r1 r2 : regex)
| Opt (r : regex)
| Plus (p : ascii -> bool)
| Group (r : regex).

(** A literal run of characters. *)
Fixpoint Lits (s : string) : regex :=
  match s with
  | String c s' => Seq (Lit c) (Lits s')
  | EmptyString => Eps
  end.

Section Matcher.
Variable A : Type.

(** Greedy [[p]+]: take as many characters as possible, then give back
    one at a time while the continuation fails. *)
Fixpoint plus (p : ascii -> bool) (s : string)
         (k : string -> option A) : option A :=
  match s with
  | String c s' =>
      if p c then
        match plus p s' k with
        | Some x => Some x
        | None => k s'
        end
      else None
  | EmptyString => None
  end.

(** Backtracking matcher in continuation-passing style: [run r s g k]
    matches [r] at the head of [s], with [g] the current content of
    group 1, and hands the rest of the subject and the group to [k].
    Alternatives are tried left to right, [?] and [+] are greedy. *)
Fixpoint run (r : regex) (s : string) (g : option string)
         (k : string -> option string -> option A) : option A :=
  match r with
  | Eps => k s g
  | Lit c =>
      match s with
      | String c' s' => if Ascii.eqb c c' then k s' g else None
      | EmptyString => None
      end
  | Cls p =>
      match s with
      | String c' s' => if p c' then k s' g else None
      | EmptyString => None
      end
  | Seq r1 r2 => run r1 s g (fun s' g' => run r2 s' g' k)
  | Alt r1 r2 =>
      match run r1 s g k with
      | Some x => Some x
      | None => run r2 s g k
      end
  | Opt r1 =>
      match run r1 s g k with
      | Some x => Some x
      | None => k s g
      end
  | Plus p => plus p s (fun s' => k s' g)
  | Group r1 =>
      run r1 s g
          (fun s' _ =>
             k s' (Some (Str.take (String.length s - String.length s') s)))
  end.
End Matcher.
Arguments plus {A} p s k.
Arguments run {A} r s g k.

(** A match object: only group 1 is read by the script. *)
Record Match : Type := { group1 : option string }.

(** [re.match]: match at the head of the subject. *)
Definition match_here (r : regex) (s : string) : option Match :=
  run r s None (fun _ g => Some {| group1 := g |}).

(** [re.search]: the leftmost position at which the pattern matches. *)
Fixpoint search (r : regex) (s : string) : option Match :=
  match match_here r s with
  | Some m => Some m
  | None =>
      match s with
      | String _ s' => search r s'
      | EmptyString => None
      end
  end.

End Re.

(* ================================================================== *)
(** * [extract_shortcode_from_url] *)
(* ================================================================== *)

Definition in_range (lo hi c : ascii) : bool :=
  ((N_of_ascii lo <=? N_of_ascii c) && (N_of_ascii c <=? N_of_ascii hi))%N.

(** The class [[A-Za-z0-9_-]]. *)
Definition ident_char (c : ascii) : bool :=
  in_range "A" "Z" c || in_range "a" "z" c || in_range "0" "9" c
  || Ascii.eqb c "_" || Ascii.eqb c "-".

(** [(?:https?://)?(?:www\.)?instagram\.com/(?:p|reel|tv)/([A-Za-z0-9_-]+)] *)
Definition pattern : Re.regex :=
  Re.Seq (Re.Opt (Re.Seq (Re.Lits "http")
                         (Re.Seq (Re.Opt (Re.Lit "s")) (Re.Lits "://"))))
  (Re.Seq (Re.Opt (Re.Lits "www."))
  (Re.Seq (Re.Lits "instagram.com/")
  (Re.Seq (Re.Alt (Re.Lits "p") (Re.Alt (Re.Lits "reel") (Re.Lits "tv")))
  (Re.Seq (Re.Lit "/")
          (Re.Group (Re.Plus ident_char)))))).

Definition extract_shortcode_from_url (url : string) : option string :=
  let url := Str.strip url in
  match Re.search pattern url with
  | Some m => Re.group1 m
  | None => None
  end.

(* ================================================================== *)
(** * Program values *)
(* ================================================================== *)

(** Exceptions the script distinguishes.  [OtherException] stands for any
    other class derived from [Exception]; [KeyboardInterrupt] derives from
    [BaseException] only, so [except Exception] lets it through. *)
Inductive exn : Type :=
| BadCredentialsException (msg : string)
| ConnectionException (msg : string)
| ProfileNotExistsException (msg : string)
| BadResponseException (msg : string)
| OtherException (msg : string)
| KeyboardInterrupt.

(** [isinstance(e, Exception)] *)
Definition is_Exception (e : exn) : bool :=
  match e with
  | KeyboardInterrupt => false
  | _ => true
  end.

(** [str(e)] *)
Definition exn_str (e : exn) : string :=
  match e with
  | BadCredentialsException m | ConnectionException m
  | ProfileNotExistsException m | BadResponseException m
  | OtherException m => m
  | KeyboardInterrupt => EmptyString
  end.

(** The attributes of a post that the script reads; [date] is the text an
    f-string shows for it. *)
Record Post : Type := {
  shortcode : string;
  date : string;
  owner_username : string
}.

(** [profile.get_posts()]: a generator that yields [listing] in order and
    then either stops or raises [listing_fault]. *)
Record Profile : Type := {
  listing : list Post;
  listing_fault : option exn
}.

(** The [Instaloader] object: the keyword arguments of [create_instance]
    and the one attribute the script mutates. *)
Record Loader : Type := {
  download_videos : bool;
  download_video_thumbnails : bool;
  download_geotags : bool;
  download_comments : bool;
  save_metadata : bool;
  compress_json : bool;
  post_metadata_txt_pattern : string;
  filename_pattern : string
}.

Definition with_filename_pattern (l : Loader) (p : string) : Loader :=
  {| download_videos := download_videos l;
     download_video_thumbnails := download_video_thumbnails l;
     download_geotags := download_geotags l;
     download_comments := download_comments l;
     save_metadata := save_metadata l;
     compress_json := compress_json l;
     post_metadata_txt_pattern := post_metadata_txt_pattern l;
     filename_pattern := p |}.

(** What the run did to its collaborators, in order. *)
Inductive event : Type :=
| Yielded (p : Post)
    (** the profile listing handed [p] to the [for] statement *)
| Fetched (sc : string) (r : option exn)
    (** [Post.from_shortcode(_, sc)] returned ([None]) or raised *)
| Downloaded (p : Post) (target : string) (pattern : string) (r : option exn)
    (** [loader.download_post(p, target=target)] ran while
        [loader.filename_pattern] was [pattern], and returned or raised *).

(** How a computation ends. *)
Inductive outcome (A : Type) : Type :=
| Normal (a : A)
| Raised (e : exn)
| Exited (code : Z).
Arguments Normal {A} a.
Arguments Raised {A} e.
Arguments Exited {A} code.

(** The parsed command line: the namespace [parser.parse_args()] returns.
    [arg_shortcode] is [args.shortcode]. *)
Record Args : Type := {
  username : option string;
  target : option string;
  count : Z;
  directory : string;
  posts_only : bool;
  arg_shortcode : option string;
  post_url : option string;
  shortcodes_file : option string
}.

(** [setup_argument_parser]: the value of every option that the command
    line does not give. *)
Definition parser_defaults : Args :=
  {| username := None;
     target := None;
     count := 0;
     directory := "downloads";
     posts_only := false;
     arg_shortcode := None;
     post_url := None;
     shortcodes_file := None |}.

(** Truth value of an optional string argument. *)
Definition given (o : option string) : bool :=
  match o with
  | Some s => Str.truthy s
  | None => false
  end.

Definition value (o : option string) : string :=
  match o with
  | Some s => s
  | None => EmptyString
  end.

(* ================================================================== *)
(** * The collaborators *)
(* ================================================================== *)

(** The library, the terminal and the file system, over a world [W] that
    they may read and change.  An operation returns [None] / [inr] on
    success and the exception it raises otherwise.  [prog] and
    [format_usage] are the parser's [parser.prog] and
    [parser.format_usage()]: argparse derives the first from [sys.argv[0]]
    and lays the second out for the width of the terminal. *)
Class Env (W : Type) : Type := {
  prog : W -> string;
  format_usage : W -> string;
  default_filename_pattern : string;
  getpass : W -> string -> W * string;
  login : W -> string -> string -> W * option exn;
  Profile_from_username : W -> string -> W * (exn + Profile);
  Post_from_shortcode : W -> string -> W * (exn + Post);
  download_post : W -> Loader -> Post -> string -> W * option exn;
  os_path_exists : W -> string -> bool;
  read_lines : W -> string -> W * (exn + list string)
}.

(** Program state. *)
Record state (W : Type) : Type := {
  world : W;
  loader : Loader;
  stdout : list string;
  stderr : list string;
  events : list event
}.
Arguments world {W} s.
Arguments loader {W} s.
Arguments stdout {W} s.
Arguments stderr {W} s.
Arguments events {W} s.

(* ================================================================== *)
(** * The script *)
(* ================================================================== *)

Section Script.
Context {W : Type} {E : Env W}.

(** State and exception monad. *)
Definition M (A : Type) : Type := state W -> outcome A * state W.

Definition ret {A} (a : A) : M A := fun st => (Normal a, st).

Definition bind {A B} (m : M A) (f : A -> M B) : M B :=
  fun st =>
    match m st with
    | (Normal a, st') => f a st'
    | (Raised e, st') => (Raised e, st')
    | (Exited c, st') => (Exited c, st')
    end.

Definition raise {A} (e : exn) : M A := fun st => (Raised e, st).

(** [sys.exit(code)] *)
Definition sys_exit {A} (code : Z) : M A := fun st => (Exited code, st).

(** [try: m  except ...: h]: [h e] is the body of the first clause that
    accepts [e], if any. *)
Definition try_except {A} (m : M A) (h : exn -> option (M A)) : M A :=
  fun st =>
    match m st with
    | (Raised e, st') =>
        match h e with
        | Some handler => handler st'
        | None => (Raised e, st')
        end
    | r => r
    end.

Notation "x <- m ;; k" := (bind m (fun x => k))
  (at level 61, m at next level, right associativity).
Notation "m ;; k" := (bind m (fun _ => k))
  (at level 61, right associativity).

Definition print (line : string) : M unit :=
  fun st =>
    (Normal tt,
     {| world := world st; loader := loader st;
        stdout := stdout st ++ [line]; stderr := stderr st;
        events := events st |}).

Definition eprint (line : string) : M unit :=
  fun st =>
    (Normal tt,
     {| world := world st; loader := loader st;
        stdout := stdout st; stderr := stderr st ++ [line];
        events := events st |}).

Definition record (ev : event) (w : W) (st : state W) : state W :=
  {| world := w; loader := loader st; stdout := stdout st;
     stderr := stderr st; events := events st ++ [ev] |}.

(** [loader.filename_pattern] *)
Definition get_filename_pattern : M string :=
  fun st => (Normal (filename_pattern (loader st)), st).

(** [loader.filename_pattern = p] *)
Definition set_filename_pattern (p : string) : M unit :=
  fun st =>
    (Normal tt,
     {| world := world st; loader := with_filename_pattern (loader st) p;
        stdout := stdout st; stderr := stderr st; events := events st |}).

(** [loader.download_post(post, target=target)] *)
Definition loader_download_post (post : Post) (target : string) : M unit :=
  fun st =>
    let (w, r) := download_post (world st) (loader st) post target in
    let st' :=
      record (Downloaded post target (filename_pattern (loader st)) r) w st in
    match r with
    | None => (Normal tt, st')
    | Some e => (Raised e, st')
    end.

(** [instaloader.Post.from_shortcode(loader.context, sc)] *)
Definition from_shortcode (sc : string) : M Post :=
  fun st =>
    let (w, r) := Post_from_shortcode (world st) sc in
    match r with
    | inr post => (Normal post, record (Fetched sc None) w st)
    | inl e => (Raised e, record (Fetched sc (Some e)) w st)
    end.

(** [instaloader.Profile.from_username(loader.context, name)] *)
Definition from_username (name : string) : M Profile :=
  fun st =>
    let (w, r) := Profile_from_username (world st) name in
    let st' :=
      {| world := w; loader := loader st; stdout := stdout st;
         stderr := stderr st; events := events st |} in
    match r with
    | inr profile => (Normal profile, st')
    | inl e => (Raised e, st')
    end.

(** One element leaves the listing. *)
Definition yield (post : Post) : M unit :=
  fun st => (Normal tt, record (Yielded post) (world st) st).

(** ** [create_instance] *)

Definition new_loader : Loader :=
  {| download_videos := true;
     download_video_thumbnails := false;
     download_geotags := false;
     download_comments := false;
     save_metadata := false;
     compress_json := false;
     post_metadata_txt_pattern := EmptyString;
     filename_pattern := default_filename_pattern |}.

Definition ask_password (prompt : string) : M string :=
  fun st =>
    let (w, pw) := getpass (world st) prompt in
    (Normal pw,
     {| world := w; loader := loader st; stdout := stdout st;
        stderr := stderr st; events := events st |}).

Definition loader_login (user password : string) : M unit :=
  fun st =>
    let (w, r) := login (world st) user password in
    let st' :=
      {| world := w; loader := loader st; stdout := stdout st;
         stderr := stderr st; events := events st |} in
    match r with
    | None => (Normal tt, st')
    | Some e => (Raised e, st')
    end.

Definition create_instance (username : option string) : M unit :=
  (fun st =>
     (Normal tt,
      {| world := world st; loader := new_loader; stdout := stdout st;
         stderr := stderr st; events := events st |})) ;;
  if given username then
    let username := value username in
    try_except
      (password <- ask_password ("Enter password for " ++ username ++ ": ") ;;
       loader_login username password ;;
       print ("Successfully logged in as " ++ username))
      (fun e =>
         match e with
         | BadCredentialsException _ =>
             Some (print "Error: Invalid credentials" ;; sys_exit 1)
         | ConnectionException _ =>
             Some (print "Error: Connection error during login" ;;
                   sys_exit 1)
         | _ => None
         end)
  else ret tt.

(** ** [download_profile_posts] *)

(** The [for post in posts] loop, lines 61-75, by recursion on what the
    generator still holds.  [downloaded] is the loop's counter; the
    result is its value when the loop ends. *)
Fixpoint profile_loop (count : Z) (posts : list Post) (fault : option exn)
         (downloaded : Z) : M Z :=
  match posts with
  | [] =>
      match fault with
      | Some e => raise e
      | None => ret downloaded
      end
  | post :: rest =>
      yield post ;;
      if (count >? 0)%Z && (downloaded >=? count)%Z then
        ret downloaded
      else
        downloaded <-
          try_except
            (print ("Downloading post " ++ shortcode post ++ " from "
                      ++ date post) ;;
             let post_dir := shortcode post in
             orig_pattern <- get_filename_pattern ;;
             set_filename_pattern (shortcode post) ;;
             loader_download_post post post_dir ;;
             set_filename_pattern orig_pattern ;;
             ret (downloaded + 1)%Z)
            (fun e =>
               if is_Exception e then
                 Some (print ("Error downloading post " ++ shortcode post
                                ++ ": " ++ exn_str e) ;;
                       ret downloaded)
               else None) ;;
        profile_loop count rest fault downloaded
  end.

Definition download_profile_posts (target_profile save_dir : string)
           (count : Z) (posts_only : bool) : M unit :=
  try_except
    (profile <- from_username target_profile ;;
     print ("Downloading posts from @" ++ target_profile ++ "...") ;;
     downloaded <-
       profile_loop count (listing profile) (listing_fault profile) 0 ;;
     print ("Successfully downloaded " ++ Str.of_Z downloaded
              ++ " posts from @" ++ target_profile))
    (fun e =>
       match e with
       | ProfileNotExistsException _ =>
           Some (print ("Error: Profile @" ++ target_profile
                          ++ " does not exist or is private") ;;
                 sys_exit 1)
       | _ =>
           if is_Exception e then
             Some (print ("Error: " ++ exn_str e) ;; sys_exit 1)
           else None
       end).

(** ** [download_post_by_shortcode] *)

Definition download_post_by_shortcode (shortcode save_dir : string)
  : M bool :=
  try_except
    (print ("Downloading post with shortcode " ++ shortcode ++ "...") ;;
     post <- from_shortcode shortcode ;;
     try_except
       (print ("Downloading post from " ++ owner_username post
                 ++ " posted on " ++ date post) ;;
        orig_pattern <- get_filename_pattern ;;
        set_filename_pattern shortcode ;;
        let post_dir := shortcode in
        loader_download_post post post_dir ;;
        set_filename_pattern orig_pattern ;;
        print ("Successfully downloaded post " ++ shortcode) ;;
        ret true)
       (fun e =>
          if is_Exception e then
            Some (print ("Error downloading post " ++ shortcode ++ ": "
                           ++ exn_str e) ;;
                  ret false)
          else None))
    (fun e =>
       match e with
       | BadResponseException _ =>
           Some (print ("Error: Post with shortcode " ++ shortcode
                          ++ " does not exist or is not accessible") ;;
                 ret false)
       | _ =>
           if is_Exception e then
             Some (print ("Error: " ++ exn_str e) ;; ret false)
           else None
       end).

(** ** [download_shortcodes_from_file] *)

Definition path_exists (path : string) : M bool :=
  fun st => (Normal (os_path_exists (world st) path), st).

(** [open(path, 'r', encoding='utf-8')] and the iteration over its lines. *)
Definition open_lines (path : string) : M (list string) :=
  fun st =>
    let (w, r) := read_lines (world st) path in
    let st' :=
      {| world := w; loader := loader st; stdout := stdout st;
         stderr := stderr st; events := events st |} in
    match r with
    | inr lines => (Normal lines, st')
    | inl e => (Raised e, st')
    end.

(** [for x in xs: body(x)] without [break]. *)
Fixpoint for_each {A} (xs : list A) (body : A -> M unit) : M unit :=
  match xs with
  | [] => ret tt
  | x :: xs' => body x ;; for_each xs' body
  end.

(** [[line.strip() for line in f if line.strip()]] *)
Definition shortcodes_of_lines (lines : list string) : list string :=
  map Str.strip (filter (fun line => Str.truthy (Str.strip line)) lines).

Definition download_shortcodes_from_file (filepath : string) : M unit :=
  found <- path_exists filepath ;;
  if negb found then
    print ("Shortcode file '" ++ filepath ++ "' not found.")
  else
    lines <- open_lines filepath ;;
    let shortcodes := shortcodes_of_lines lines in
    print ("Found " ++ Str.of_nat (List.length shortcodes)
             ++ " shortcodes in " ++ filepath ++ ". Starting download...") ;;
    for_each shortcodes
             (fun shortcode =>
                download_post_by_shortcode shortcode "." ;; ret tt) ;;
    print "All shortcodes processed.".

(** ** [main] *)

(** [parser.error(message)] of argparse: [print_usage] writes the usage
    text on standard error, then [exit] writes [<prog>: error: <message>]
    there and ends the process with status 2. *)
Definition parser_error {A} (message : string) : M A :=
  fun st =>
    (eprint (format_usage (world st)) ;;
     eprint (prog (world st) ++ ": error: " ++ message) ;;
     sys_exit 2) st.

Definition main (args : Args) : M unit :=
  if given (shortcodes_file args) then
    create_instance (username args) ;;
    download_shortcodes_from_file (value (shortcodes_file args))
  else
    (if negb (given (target args) || given (arg_shortcode args)
              || given (post_url args))
     then parser_error
            "You must provide at least one of: -t/--target, -s/--shortcode, or -P/--post-url"
     else ret tt) ;;
    create_instance (username args) ;;
    if given (post_url args) then
      match extract_shortcode_from_url (value (post_url args)) with
      | Some shortcode =>
          (if Str.truthy shortcode then
             download_post_by_shortcode shortcode (directory args) ;; ret tt
           else
             print "Error: Could not extract shortcode from the provided URL" ;;
             sys_exit 1)
      | None =>
          print "Error: Could not extract shortcode from the provided URL" ;;
          sys_exit 1
      end
    else if given (arg_shortcode args) then
      download_post_by_shortcode (value (arg_shortcode args))
                                 (directory args) ;;
      ret tt
    else if given (target args) then
      download_profile_posts (value (target args)) (directory args)
                             (count args) (posts_only args)
    else ret tt.

(** ** The [__main__] block *)

Definition initial (w : W) : state W :=
  {| world := w; loader := new_loader; stdout := []; stderr := [];
     events := [] |}.

(** Exit status of the process and its final state.  An exception that
    reaches the top is a traceback and status 1, except
    [KeyboardInterrupt], which the block turns into status 0. *)
Definition script (args : Args) (w : W) : Z * state W :=
  match main args (initial w) with
  | (Normal _, st) => (0%Z, st)
  | (Exited code, st) => (code, st)
  | (Raised KeyboardInterrupt, st) =>
      (0%Z,
       {| world := world st; loader := loader st;
          stdout := stdout st
                      ++ [(Str.newline ++ "Download interrupted by user")%string];
          stderr := stderr st; events := events st |})
  | (Raised _, st) => (1%Z, st)
  end.

End Script.

(* ================================================================== *)
(** * Notions used in the statements *)
(* ================================================================== *)

(** Posts handed to [loader.download_post], in order. *)
Fixpoint attempts (evs : list event) : list Post :=
  match evs with
  | Downloaded p _ _ _ :: evs' => p :: attempts evs'
  | _ :: evs' => attempts evs'
  | [] => []
  end.

(** Posts the profile listing has handed out, in order. *)
Fixpoint yields (evs : list event) : list Post :=
  match evs with
  | Yielded p :: evs' => p :: yields evs'
  | _ :: evs' => yields evs'
  | [] => []
  end.

(** Shortcodes passed to [Post.from_shortcode], in order. *)
Fixpoint fetches (evs : list event) : list string :=
  match evs with
  | Fetched sc _ :: evs' => sc :: fetches evs'
  | _ :: evs' => fetches evs'
  | [] => []
  end.

(** Number of downloads that returned. *)
Fixpoint successes (evs : list event) : Z :=
  match evs with
  | Downloaded _ _ _ None :: evs' => (1 + successes evs')%Z
  | _ :: evs' => successes evs'
  | [] => 0%Z
  end.

(** The directory of every download is [dir_of] its post. *)
Definition targets (dir_of : Post -> string) (evs : list event) : Prop :=
  Forall (fun ev =>
            match ev with
            | Downloaded p target _ _ => target = dir_of p
            | _ => True
            end) evs.

(** The line the script prints for a collaborator call that raised an
    [Exception]: lines 74, 99, 102 and 105 of the source. *)
Definition download_error_line (sc : string) (e : exn) : string :=
  "Error downloading post " ++ sc ++ ": " ++ exn_str e.

Definition fetch_error_line (sc : string) (e : exn) : string :=
  match e with
  | BadResponseException _ =>
      "Error: Post with shortcode " ++ sc
        ++ " does not exist or is not accessible"
  | _ => "Error: " ++ exn_str e
  end.

Definition error_line (ev : event) : option string :=
  match ev with
  | Downloaded _ target _ (Some e) =>
      if is_Exception e then Some (download_error_line target e) else None
  | Fetched sc (Some e) =>
      if is_Exception e then Some (fetch_error_line sc e) else None
  | _ => None
  end.

(** Every call of [evs] that raised an [Exception] has its line in
    [lines]. *)
Definition errors_reported (evs : list event) (lines : list string) : Prop :=
  forall ev line, In ev evs -> error_line ev = Some line -> In line lines.

(** The ways the loop of [download_profile_posts] can end, in terms of the
    events [evs] it added and of the value [d] of its counter at the start:
    the listing ran out; the listing raised; the cap stopped it on the
    element [x] it had just pulled, at once if the counter had reached the
    cap already and else right after a download that returned; or a download
    was interrupted. *)
Inductive loop_end (count : Z) (posts : list Post) (fault : option exn)
          (d : Z) (evs : list event) : outcome Z -> Prop :=
| Exhausted :
    fault = None ->
    attempts evs = posts ->
    yields evs = posts ->
    loop_end count posts fault d evs (Normal (d + successes evs)%Z)
| Faulted e :
    fault = Some e ->
    attempts evs = posts ->
    yields evs = posts ->
    loop_end count posts fault d evs (Raised e)
| Capped x rest :
    (0 < count)%Z ->
    (count <= d + successes evs)%Z ->
    posts = attempts evs ++ x :: rest ->
    yields evs = attempts evs ++ [x] ->
    ((count <= d)%Z -> evs = [Yielded x]) ->
    ((d < count)%Z ->
     exists p target pat before,
       evs = before ++ [Downloaded p target pat None; Yielded x]) ->
    loop_end count posts fault d evs (Normal (d + successes evs)%Z)
| Interrupted e rest :
    is_Exception e = false ->
    posts = attempts evs ++ rest ->
    yields evs = attempts evs ->
    (exists p target pat before,
        evs = before ++ [Downloaded p target pat (Some e)]) ->
    loop_end count posts fault d evs (Raised e).

(** What a pattern matches, independently of the matcher: [denotes r s g g']
    when [r] matches exactly the text [s], turning group 1 from [g] into
    [g']. *)
Fixpoint denotes (r : Re.regex) (s : string) (g g' : option string) : Prop :=
  match r with
  | Re.Eps => s = EmptyString /\ g' = g
  | Re.Lit c => s = String c EmptyString /\ g' = g
  | Re.Cls p => exists c, s = String c EmptyString /\ p c = true /\ g' = g
  | Re.Seq r1 r2 =>
      exists s1 s2 gm,
        s = (s1 ++ s2)%string /\ denotes r1 s1 g gm /\ denotes r2 s2 gm g'
  | Re.Alt r1 r2 => denotes r1 s g g' \/ denotes r2 s g g'
  | Re.Opt r1 => denotes r1 s g g' \/ (s = EmptyString /\ g' = g)
  | Re.Plus p => s <> EmptyString /\ Str.forallb p s = true /\ g' = g
  | Re.Group r1 => (exists gm, denotes r1 s g gm) /\ g' = Some s
  end.

(** The text [instagram.com/] followed by [p/], [reel/] or [tv/] and one
    character of the identifier class, at the head of [s]. *)
Fixpoint after (p s : string) : option string :=
  match p with
  | EmptyString => Some s
  | String a p' =>
      match s with
      | String b s' => if Ascii.eqb a b then after p' s' else None
      | EmptyString => None
      end
  end.

Definition ident_after (p s : string) : bool :=
  match after p s with
  | Some (String c _) => ident_char c
  | _ => false
  end.

Definition post_path_here (s : string) : bool :=
  match after "instagram.com/" s with
  | Some t => ident_after "p/" t || ident_after "reel/" t || ident_after "tv/" t
  | None => false
  end.

(** The same text anywhere in [s]. *)
Fixpoint contains_post_path (s : string) : bool :=
  post_path_here s ||
  match s with
  | String _ s' => contains_post_path s'
  | EmptyString => false
  end.

(** Host of a URL as the specification reads it: what follows the optional
    scheme and the optional [www.] prefix, up to the first [/], [?] or [#]. *)
Definition drop_prefix (p s : string) : string :=
  match after p s with
  | Some t => t
  | None => s
  end.

Fixpoint until_delimiter (s : string) : string :=
  match s with
  | String c s' =>
      if Ascii.eqb c "/" || Ascii.eqb c "?" || Ascii.eqb c "#" then EmptyString
      else String c (until_delimiter s')
  | EmptyString => EmptyString
  end.

Definition spec_host (url : string) : string :=
  until_delimiter
    (drop_prefix "www." (drop_prefix "http://" (drop_prefix "https://" url))).

(** Changing one field of the command line. *)
Definition with_directory (args : Args) (d : string) : Args :=
  {| username := username args; target := target args; count := count args;
     directory := d; posts_only := posts_only args;
     arg_shortcode := arg_shortcode args; post_url := post_url args;
     shortcodes_file := shortcodes_file args |}.

Definition with_posts_only (args : Args) (b : bool) : Args :=
  {| username := username args; target := target args; count := count args;
     directory := directory args; posts_only := b;
     arg_shortcode := arg_shortcode args; post_url := post_url args;
     shortcodes_file := shortcodes_file args |}.

(* ================================================================== *)
(** * A small collaborator for concrete runs *)
(* ================================================================== *)

Module Demo.

(** One profile, [@alice], and one file; downloads of the shortcodes in
    [broken] raise a [ConnectionException]. *)
Record world : Type := {
  alice : list Post;
  broken : list string;
  file_name : string;
  file_lines : list string
}.

Definition post (sc : string) : Post :=
  {| shortcode := sc; date := "2024-05-01 10:00:00";
     owner_username := "alice" |}.

Definition is_broken (w : world) (sc : string) : bool :=
  existsb (String.eqb sc) (broken w).

(** The usage text on a terminal wide enough for one line. *)
Definition usage : string :=
  "usage: instagram_downloader.py [-h] [-u USERNAME] [-t TARGET] [-c COUNT] [-d DIRECTORY] [-p] [-s SHORTCODE] [-P POST_URL] [--shortcodes-file SHORTCODES_FILE]".

#[global] Instance env : Env world := {|
  prog _ := "instagram_downloader.py";
  format_usage _ := usage;
  default_filename_pattern := "{date_utc}_UTC";
  getpass w _ := (w, "secret");
  login w _ _ := (w, None);
  Profile_from_username w name :=
    if String.eqb name "alice"
    then (w, inr {| listing := alice w; listing_fault := None |})
    else (w, inl (ProfileNotExistsException "no such profile"));
  Post_from_shortcode w sc := (w, inr (post sc));
  download_post w _ p _ :=
    if is_broken w (shortcode p)
    then (w, Some (ConnectionException "timed out"))
    else (w, None);
  os_path_exists w path := String.eqb path (file_name w);
  read_lines w path :=
    if String.eqb path (file_name w) then (w, inr (file_lines w))
    else (w, inl (OtherException "No such file or directory"))
|}.

(** [BAD] fails, everything else downloads. *)
Definition w0 : world :=
  {| alice := [post "BAD"; post "GOOD"; post "NEXT"];
     broken := ["BAD"];
     file_name := "codes.txt";
     file_lines := ["AAA111" ++ Str.newline; Str.newline;
                    "BAD" ++ Str.newline; "BBB222"]%string |}.

(** Nothing fails. *)
Definition w1 : world :=
  {| alice := [post "A1"; post "B2"; post "C3"];
     broken := [];
     file_name := "codes.txt";
     file_lines := [] |}.

Definition no_args : Args := parser_defaults.

Definition profile_args (n : Z) : Args :=
  {| username := None; target := Some "alice"; count := n;
     directory := "downloads"; posts_only := false; arg_shortcode := None;
     post_url := None; shortcodes_file := None |}.

Definition url_args (u : string) : Args :=
  {| username := None; target := None; count := 0; directory := "downloads";
     posts_only := false; arg_shortcode := None; post_url := Some u;
     shortcodes_file := None |}.

Definition file_args (f : string) : Args :=
  {| username := None; target := None; count := 0; directory := "downloads";
     posts_only := false; arg_shortcode := None; post_url := None;
     shortcodes_file := Some f |}.

End Demo.

(** The state after one pass of the loop body of [download_profile_posts]
    over [post], started in [st], when the download left the world [w] and
    ended as [r]: the progress line is printed, and on a failure its error
    line; the loader keeps the state's pattern on success and the post's
    shortcode on a failure. *)
Definition item_done {W} (w : W) (post : Post) (r : option exn)
           (st : state W) : state W :=
  {| world := w;
     loader :=
       match r with
       | None => loader st
       | Some _ => with_filename_pattern (loader st) (shortcode post)
       end;
     stdout :=
       stdout st ++
       ("Downloading post " ++ shortcode post ++ " from " ++ date post)%string
       :: match r with
          | Some e =>
              if is_Exception e
              then [download_error_line (shortcode post) e] else []
          | None => []
          end;
     stderr := stderr st;
     events :=
       events st ++
       [Yielded post; Downloaded post (shortcode post) (shortcode post) r] |}.

(** The state after [download_post_by_shortcode sc _], started in [st],
    when [Post.from_shortcode] left the world [w] and raised [e]. *)
Definition fetch_failed {W} (w : W) (sc : string) (e : exn)
           (st : state W) : state W :=
  {| world := w;
     loader := loader st;
     stdout :=
       stdout st ++
       ("Downloading post with shortcode " ++ sc ++ "...")%string
       :: (if is_Exception e then [fetch_error_line sc e] else []);
     stderr := stderr st;
     events := events st ++ [Fetched sc (Some e)] |}.

(** The same when [Post.from_shortcode] returned [post] and the download
    left the world [w] and ended as [r]. *)
Definition post_done {W} (w : W) (sc : string) (post : Post) (r : option exn)
           (st : state W) : state W :=
  {| world := w;
     loader :=
       match r with
       | None => loader st
       | Some _ => with_filename_pattern (loader st) sc
       end;
     stdout :=
       stdout st ++
       ("Downloading post with shortcode " ++ sc ++ "...")%string
       :: ("Downloading post from " ++ owner_username post ++ " posted on "
             ++ date post)%string
       :: match r with
          | None => [("Successfully downloaded post " ++ sc)%string]
          | Some e =>
              if is_Exception e then [download_error_line sc e] else []
          end;
     stderr := stderr st;
     events := events st ++ [Fetched sc None; Downloaded post sc sc r] |}.

(** How a call that may raise ends a function that reports failures by
    returning [False]. *)
Definition reported (r : option exn) : outcome bool :=
  match r with
  | None => Normal true
  | Some e => if is_Exception e then Normal false else Raised e
  end.

(** ** A scan that finds what the pattern finds *)

(** Longest prefix of [s] made of characters of [p], and what follows it. *)
Fixpoint span (p : ascii -> bool) (s : string) : string * string :=
  match s with
  | String c s' =>
      if p c then let (r, t) := span p s' in (String c r, t)
      else (EmptyString, s)
  | EmptyString => (EmptyString, EmptyString)
  end.

(** The identifier that follows [seg/] at the head of [t], if there is one. *)
Definition id_after (seg t : string) : option string :=
  match after (seg ++ "/") t with
  | Some u =>
      match fst (span ident_char u) with
      | EmptyString => None
      | r => Some r
      end
  | None => None
  end.

(** The identifier of a post path at the head of [s]. *)
Definition post_id_here (s : string) : option string :=
  match after "instagram.com/" s with
  | Some t =>
      match id_after "p" t with
      | Some r => Some r
      | None =>
          match id_after "reel" t with
          | Some r => Some r
          | None => id_after "tv" t
          end
      end
  | None => None
  end.

(** The identifier of the first post path of [s], reading left to right. *)
Fixpoint first_post_id (s : string) : option string :=
  match post_id_here s with
  | Some r => Some r
  | None =>
      match s with
      | String _ s' => first_post_id s'
      | EmptyString => None
      end
  end.

(** [s] without a leading [https://] or [http://], and without a leading
    [www.]. *)
Definition drop_scheme (s : string) : string :=
  match after "https://" s with
  | Some t => t
  | None => drop_prefix "http://" s
  end.

Definition drop_www (s : string) : string := drop_prefix "www." s.

(** The parts of [pattern]: its optional scheme, and what follows the
    optional [www.]. *)
Definition scheme : Re.regex :=
  Re.Seq (Re.Lits "http") (Re.Seq (Re.Opt (Re.Lit "s")) (Re.Lits "://")).

Definition core : Re.regex :=
  Re.Seq (Re.Lits "instagram.com/")
  (Re.Seq (Re.Alt (Re.Lits "p") (Re.Alt (Re.Lits "reel") (Re.Lits "tv")))
  (Re.Seq (Re.Lit "/")
          (Re.Group (Re.Plus ident_char)))).

(** The match object whose group 1 is [r], and the continuation that ends
    a match. *)
Definition mk (r : string) : Re.Match := {| Re.group1 := Some r |}.

Definition K : string -> option string -> option Re.Match :=
  fun _ g => Some {| Re.group1 := g |}.

(** [pattern] after its optional scheme. *)
Definition after_scheme (s : string) (g : option string) : option Re.Match :=
  Re.run (Re.Seq (Re.Opt (Re.Lits "www.")) core) s g K.

(** ** Notions used in the further properties *)

(** Every download ran with the loader's pattern equal to its target. *)
Definition named_by_target (evs : list event) : Prop :=
  Forall (fun ev =>
            match ev with
            | Downloaded _ target pat _ => pat = target
            | _ => True
            end) evs.

(** No download of [evs] raised. *)
Definition downloads_returned (evs : list event) : bool :=
  forallb (fun ev =>
             match ev with
             | Downloaded _ _ _ (Some _) => false
             | _ => true
             end) evs.

(** A collaborator whose calls fail on request. *)
Module Flaky.

Record world : Type := {
  listing_posts : list Post;
  listing_raises : option exn;
  login_raises : option exn;
  file_raises : option exn;
  fetch_raises : option exn;
  download_raises : option exn
}.

Definition env : Env world := {|
  prog _ := "instagram_downloader.py";
  format_usage _ := Demo.usage;
  default_filename_pattern := "{date_utc}_UTC";
  getpass w _ := (w, "secret");
  login w _ _ := (w, login_raises w);
  Profile_from_username w _ :=
    (w, inr {| listing := listing_posts w;
               listing_fault := listing_raises w |});
  Post_from_shortcode w sc :=
    match fetch_raises w with
    | Some e => (w, inl e)
    | None => (w, inr (Demo.post sc))
    end;
  download_post w _ _ _ := (w, download_raises w);
  os_path_exists w _ := true;
  read_lines w _ :=
    match file_raises w with
    | Some e => (w, inl e)
    | None => (w, inr [])
    end
|}.

(** Nothing fails. *)
Definition calm : world :=
  {| listing_posts := [Demo.post "A1"; Demo.post "B2"];
     listing_raises := None; login_raises := None; file_raises := None;
     fetch_raises := None; download_raises := None |}.


Definition with_login_fault (e : exn) : world :=
  {| listing_posts := [Demo.post "A1"; Demo.post "B2"];
     listing_raises := None; login_raises := Some e; file_raises := None;
     fetch_raises := None; download_raises := None |}.

Definition with_file_fault (e : exn) : world :=
  {| listing_posts := [Demo.post "A1"; Demo.post "B2"];
     listing_raises := None; login_raises := None; file_raises := Some e;
     fetch_raises := None; download_raises := None |}.

Definition with_download_fault (e : exn) : world :=
  {| listing_posts := [Demo.post "A1"; Demo.post "B2"];
     listing_raises := None; login_raises := None; file_raises := None;
     fetch_raises := None; download_raises := Some e |}.

End Flaky.

(* ================================================================== *)
(** * Facts about strings *)
(* ================================================================== *)

Module StrFacts.
Local Open Scope string_scope.

Lemma append_assoc (a b c : string) : (a ++ b) ++ c = a ++ (b ++ c).
Proof. induction a as [|x a IH]; cbn; [reflexivity | now rewrite IH]. Qed.

Lemma append_nil_r (a : string) : a ++ "" = a.
Proof. induction a as [|x a IH]; cbn; [reflexivity | now rewrite IH]. Qed.

Lemma length_append (a b : string) :
  String.length (a ++ b) = String.length a + String.length b.
Proof. induction a as [|x a IH]; cbn; [reflexivity | now rewrite IH]. Qed.

Lemma take_length_append (a b : string) :
  Str.take (String.length a) (a ++ b) = a.
Proof. induction a as [|x a IH]; cbn; [now destruct b | now rewrite IH]. Qed.

Lemma take_append (a b : string) :
  Str.take (String.length (a ++ b) - String.length b) (a ++ b) = a.
Proof.
  rewrite length_append.
  replace (String.length a + String.length b - String.length b)
    with (String.length a) by lia.
  apply take_length_append.
Qed.

Lemma forallb_append p (a b : string) :
  Str.forallb p (a ++ b) = Str.forallb p a && Str.forallb p b.
Proof.
  induction a as [|x a IH]; cbn; [reflexivity|].
  now rewrite IH, andb_assoc.
Qed.

Lemma forallb_lstrip p (s : string) :
  Str.forallb p s = true -> Str.forallb p (Str.lstrip s) = true.
Proof.
  induction s as [|c s IH]; cbn; [easy|].
  intros H. apply andb_true_iff in H as [Hc Hs].
  destruct (Str.isspace c); [auto | cbn; now rewrite Hc, Hs].
Qed.

Lemma forallb_rstrip p (s : string) :
  Str.forallb p s = true -> Str.forallb p (Str.rstrip s) = true.
Proof.
  induction s as [|c s IH]; cbn; [easy|].
  intros H. apply andb_true_iff in H as [Hc Hs].
  specialize (IH Hs).
  destruct (Str.rstrip s) as [|c' t].
  - destruct (Str.isspace c); cbn; [reflexivity | now rewrite Hc].
  - cbn in *. now rewrite Hc, IH.
Qed.

Lemma forallb_strip p (s : string) :
  Str.forallb p s = true -> Str.forallb p (Str.strip s) = true.
Proof. intros H. now apply forallb_rstrip, forallb_lstrip. Qed.

Lemma forallb_mem p c (s : string) :
  Str.forallb p s = true -> p c = false -> Str.mem c s = false.
Proof.
  induction s as [|c' s IH]; cbn; [easy|].
  intros H Hc. apply andb_true_iff in H as [Hc' Hs].
  rewrite (IH Hs Hc), orb_false_r.
  destruct (Ascii.eqb_spec c c') as [->|]; [congruence | reflexivity].
Qed.

Lemma mem_append c (a b : string) :
  Str.mem c (a ++ b) = Str.mem c a || Str.mem c b.
Proof.
  induction a as [|x a IH]; cbn; [reflexivity|].
  now rewrite IH, orb_assoc.
Qed.

Lemma after_sound (p s t : string) : after p s = Some t -> s = p ++ t.
Proof.
  revert s; induction p as [|a p IH]; cbn; intros s H.
  - congruence.
  - destruct s as [|b s]; [discriminate|].
    destruct (Ascii.eqb_spec a b) as [->|]; [|discriminate].
    now rewrite (IH _ H).
Qed.

Lemma after_append (p t : string) : after p (p ++ t) = Some t.
Proof.
  induction p as [|a p IH]; cbn; [reflexivity|].
  now rewrite Ascii.eqb_refl.
Qed.

End StrFacts.

(* ================================================================== *)
(** * The matcher against the meaning of patterns *)
(* ================================================================== *)

Module ReFacts.
Import StrFacts.
Local Open Scope string_scope.

Section Soundness.
Variable A : Type.

Lemma plus_sound p : forall (s : string) (k : string -> option A) x,
    Re.plus p s k = Some x ->
    exists s1 s2,
      s = s1 ++ s2 /\ s1 <> "" /\ Str.forallb p s1 = true
      /\ k s2 = Some x.
Proof.
  induction s as [|c s IH]; cbn; intros k x H; [discriminate|].
  destruct (p c) eqn:Hc; [|discriminate].
  destruct (Re.plus p s k) as [y|] eqn:Hrec.
  - destruct (IH _ _ Hrec) as (s1 & s2 & -> & _ & Hall & Hk).
    exists (String c s1), s2; cbn. rewrite Hc, Hall.
    repeat split; try easy. congruence.
  - exists (String c ""), s; cbn. rewrite Hc. repeat split; easy.
Qed.

Lemma run_sound r : forall (s : string) g
                           (k : string -> option string -> option A) x,
    Re.run r s g k = Some x ->
    exists s1 s2 g',
      s = s1 ++ s2 /\ denotes r s1 g g' /\ k s2 g' = Some x.
Proof.
  induction r as [|c|p|r1 IH1 r2 IH2|r1 IH1 r2 IH2|r1 IH1|p|r1 IH1];
    cbn; intros s g k x H.
  - exists "", s, g; cbn; auto.
  - destruct s as [|c' s]; [discriminate|].
    destruct (Ascii.eqb_spec c c') as [->|]; [|discriminate].
    exists (String c' ""), s, g; cbn; auto.
  - destruct s as [|c' s]; [discriminate|].
    destruct (p c') eqn:Hp; [|discriminate].
    exists (String c' ""), s, g; cbn.
    repeat split; auto. exists c'; auto.
  - destruct (IH1 _ _ _ _ H) as (s1 & t & gm & -> & D1 & H2).
    destruct (IH2 _ _ _ _ H2) as (s2 & s3 & g' & -> & D2 & H3).
    exists (s1 ++ s2), s3, g'. rewrite append_assoc.
    repeat split; auto. exists s1, s2, gm; auto.
  - destruct (Re.run r1 s g k) as [y|] eqn:H1.
    + destruct (IH1 _ _ _ _ H1) as (s1 & s2 & g' & -> & D & Hk).
      exists s1, s2, g'; repeat split; auto; congruence.
    + destruct (IH2 _ _ _ _ H) as (s1 & s2 & g' & -> & D & Hk).
      exists s1, s2, g'; auto.
  - destruct (Re.run r1 s g k) as [y|] eqn:H1.
    + destruct (IH1 _ _ _ _ H1) as (s1 & s2 & g' & -> & D & Hk).
      exists s1, s2, g'; repeat split; auto; congruence.
    + exists "", s, g; cbn; auto.
  - destruct (plus_sound _ _ _ _ H) as (s1 & s2 & -> & Hne & Hall & Hk).
    exists s1, s2, g; auto.
  - destruct (IH1 _ _ _ _ H) as (s1 & s2 & gm & -> & D & Hk).
    rewrite take_append in Hk.
    exists s1, s2, (Some s1); repeat split; eauto.
Qed.

Lemma plus_complete p : forall (s1 s2 : string) (k : string -> option A),
    s1 <> "" -> Str.forallb p s1 = true -> k s2 <> None ->
    Re.plus p (s1 ++ s2) k <> None.
Proof.
  induction s1 as [|c s1 IH]; cbn; intros s2 k Hne Hall Hk; [easy|].
  apply andb_true_iff in Hall as [Hc Hall]. rewrite Hc.
  destruct s1 as [|c' s1].
  - cbn. destruct (Re.plus p s2 k); [discriminate | exact Hk].
  - assert (Hrec : Re.plus p (String c' s1 ++ s2) k <> None)
      by (apply IH; [discriminate | exact Hall | exact Hk]).
    destruct (Re.plus p (String c' s1 ++ s2) k); [discriminate | easy].
Qed.

Lemma run_complete r : forall (s1 s2 : string) g g'
                              (k : string -> option string -> option A),
    denotes r s1 g g' -> k s2 g' <> None ->
    Re.run r (s1 ++ s2) g k <> None.
Proof.
  induction r as [|c|p|r1 IH1 r2 IH2|r1 IH1 r2 IH2|r1 IH1|p|r1 IH1];
    cbn; intros s1 s2 g g' k D Hk.
  - destruct D as [-> ->]. exact Hk.
  - destruct D as [-> ->]. cbn. now rewrite Ascii.eqb_refl.
  - destruct D as (c & -> & Hp & ->). cbn. now rewrite Hp.
  - destruct D as (t1 & t2 & gm & -> & D1 & D2).
    rewrite append_assoc. eapply IH1; [exact D1|].
    eapply IH2; eauto.
  - destruct D as [D|D].
    + specialize (IH1 _ s2 _ _ k D Hk).
      destruct (Re.run r1 (s1 ++ s2) g k); [discriminate | easy].
    + specialize (IH2 _ s2 _ _ k D Hk).
      destruct (Re.run r1 (s1 ++ s2) g k); [discriminate | easy].
  - destruct D as [D|[-> ->]].
    + specialize (IH1 _ s2 _ _ k D Hk).
      destruct (Re.run r1 (s1 ++ s2) g k); [discriminate | easy].
    + cbn. destruct (Re.run r1 s2 g k); [discriminate | easy].
  - destruct D as (Hne & Hall & ->). now apply plus_complete.
  - destruct D as [[gm D] ->].
    eapply IH1; [exact D|]. now rewrite take_append.
Qed.
End Soundness.

Lemma denotes_Lits (t s : string) g g' :
  denotes (Re.Lits t) s g g' <-> s = t /\ g' = g.
Proof.
  revert s; induction t as [|c t IH]; cbn; intros s; [tauto|].
  split.
  - intros (s1 & s2 & gm & -> & [-> ->] & D).
    apply IH in D as [-> ->]. auto.
  - intros [-> ->]. exists (String c ""), t, g. cbn.
    repeat split; auto. apply IH; auto.
Qed.

Lemma search_sound r : forall (s : string) m,
    Re.search r s = Some m ->
    exists pre t, s = pre ++ t /\ Re.match_here r t = Some m.
Proof.
  induction s as [|c s IH]; cbn; intros m H.
  - destruct (Re.match_here r "") as [m'|] eqn:Hm; [|discriminate].
    exists "", ""; split; [reflexivity | congruence].
  - destruct (Re.match_here r (String c s)) as [m'|] eqn:Hm.
    + exists "", (String c s); split; [reflexivity | congruence].
    + destruct (IH _ H) as (pre & t & -> & Ht).
      exists (String c pre), t; auto.
Qed.

Lemma search_complete r : forall (pre t : string),
    Re.match_here r t <> None -> Re.search r (pre ++ t) <> None.
Proof.
  assert (Hhere : forall t, Re.match_here r t <> None ->
                            Re.search r t <> None).
  { intros t H. destruct t; cbn; destruct (Re.match_here r _); easy. }
  induction pre as [|c pre IH]; cbn [append]; intros t H; [auto|].
  cbn. destruct (Re.match_here r (String c (pre ++ t))); [discriminate|].
  now apply IH.
Qed.

End ReFacts.

(* ================================================================== *)
(** * The shortcode resolver *)
(* ================================================================== *)

Module Resolver.
Import StrFacts ReFacts.
Local Open Scope string_scope.

(** Every text the pattern matches ends in [instagram.com/], one of the
    three segments, [/] and a non-empty run of identifier characters,
    which is group 1. *)
Lemma pattern_shape (s : string) g g' :
  denotes pattern s g g' ->
  exists pre seg c run,
    s = pre ++ "instagram.com/" ++ seg ++ "/" ++ String c run
    /\ (seg = "p" \/ seg = "reel" \/ seg = "tv")
    /\ ident_char c = true
    /\ Str.forallb ident_char run = true
    /\ g' = Some (String c run).
Proof.
  unfold pattern. cbn [denotes].
  intros (s1 & t1 & g1 & -> & _ & s2 & t2 & g2 & -> & _
          & s3 & t3 & g3 & -> & D3 & s4 & t4 & g4 & -> & D4
          & s5 & t5 & g5 & -> & [-> _] & (gm & Hne & Hall & _) & ->).
  apply denotes_Lits in D3 as [-> _].
  destruct t5 as [|c run]; [easy|]. cbn in Hall.
  apply andb_true_iff in Hall as [Hc Hrun].
  exists (s1 ++ s2), s4, c, run.
  rewrite !append_assoc. repeat split; auto.
  destruct D4 as [D|[D|D]]; apply denotes_Lits in D as [-> _]; auto.
Qed.

Lemma post_path_here_intro (seg : string) c (rest : string) :
  seg = "p" \/ seg = "reel" \/ seg = "tv" ->
  ident_char c = true ->
  post_path_here ("instagram.com/" ++ seg ++ "/" ++ String c rest) = true.
Proof.
  intros [-> | [-> | ->]] Hc; cbn; rewrite Hc; cbn;
    rewrite ?orb_true_r; reflexivity.
Qed.

Lemma contains_post_path_append (pre t : string) :
  post_path_here t = true -> contains_post_path (pre ++ t) = true.
Proof.
  intros H. induction pre as [|c pre IH]; cbn [append].
  - destruct t; cbn [contains_post_path]; now rewrite H.
  - cbn [contains_post_path]. rewrite IH. apply orb_true_r.
Qed.

Lemma contains_post_path_split : forall s : string,
    contains_post_path s = true ->
    exists pre t, s = pre ++ t /\ post_path_here t = true.
Proof.
  induction s as [|c s IH]; cbn [contains_post_path]; intros H.
  - rewrite orb_false_r in H. exists "", ""; auto.
  - apply orb_true_iff in H as [H|H].
    + exists "", (String c s); auto.
    + destruct (IH H) as (pre & t & -> & Ht).
      exists (String c pre), t; auto.
Qed.

Lemma post_path_here_elim (t : string) :
  post_path_here t = true ->
  exists seg c rest,
    t = "instagram.com/" ++ seg ++ "/" ++ String c rest
    /\ (seg = "p" \/ seg = "reel" \/ seg = "tv")
    /\ ident_char c = true.
Proof.
  unfold post_path_here.
  destruct (after "instagram.com/" t) as [u|] eqn:Hu; [|discriminate].
  apply after_sound in Hu as ->.
  assert (Hseg : forall seg,
             ident_after (seg ++ "/") u = true ->
             exists c rest, u = seg ++ "/" ++ String c rest
                            /\ ident_char c = true).
  { intros seg H. unfold ident_after in H.
    destruct (after (seg ++ "/") u) as [[|c rest]|] eqn:Hv; try discriminate.
    apply after_sound in Hv as ->. exists c, rest.
    now rewrite append_assoc. }
  intros H. apply orb_true_iff in H as [H|H];
    [apply orb_true_iff in H as [H|H]|].
  - destruct (Hseg "p" H) as (c & rest & -> & Hc).
    exists "p", c, rest; auto.
  - destruct (Hseg "reel" H) as (c & rest & -> & Hc).
    exists "reel", c, rest; auto.
  - destruct (Hseg "tv" H) as (c & rest & -> & Hc).
    exists "tv", c, rest; auto.
Qed.

(** A successful search returns a non-empty run of identifier characters
    that follows a post path in the subject. *)
Lemma search_pattern_sound (s : string) m :
  Re.search pattern s = Some m ->
  contains_post_path s = true
  /\ exists c run, Re.group1 m = Some (String c run)
                   /\ Str.forallb ident_char (String c run) = true.
Proof.
  intros H. apply search_sound in H as (pre & t & -> & Ht).
  unfold Re.match_here in Ht.
  apply run_sound in Ht as (s1 & s2 & g' & -> & D & Hk).
  apply pattern_shape in D
    as (pre' & seg & c & run & -> & Hseg & Hc & Hrun & ->).
  inversion Hk; subst m; clear Hk. split.
  - replace (pre ++ (pre' ++ "instagram.com/" ++ seg ++ "/" ++ String c run)
                 ++ s2)
      with ((pre ++ pre')
              ++ "instagram.com/" ++ seg ++ "/" ++ String c (run ++ s2))
      by (now rewrite !append_assoc).
    apply contains_post_path_append, post_path_here_intro; auto.
  - exists c, run; cbn. now rewrite Hc, Hrun.
Qed.

(** The search succeeds on every subject that contains a post path. *)
Lemma search_pattern_complete (s : string) :
  contains_post_path s = true -> Re.search pattern s <> None.
Proof.
  intros H. apply contains_post_path_split in H as (pre & t & -> & Ht).
  apply post_path_here_elim in Ht as (seg & c & rest & -> & Hseg & Hc).
  apply search_complete. unfold Re.match_here.
  replace ("instagram.com/" ++ seg ++ "/" ++ String c rest)
    with (("instagram.com/" ++ seg ++ "/" ++ String c "") ++ rest)
    by (now rewrite !append_assoc).
  eapply run_complete; [|discriminate].
  unfold pattern. cbn [denotes].
  exists "", ("instagram.com/" ++ seg ++ "/" ++ String c ""), None.
  repeat split; [right; auto|].
  exists "", ("instagram.com/" ++ seg ++ "/" ++ String c ""), None.
  repeat split; [right; auto|].
  exists "instagram.com/", (seg ++ "/" ++ String c ""), None.
  repeat split; [apply denotes_Lits; auto|].
  exists seg, ("/" ++ String c ""), None.
  repeat split.
  - destruct Hseg as [-> | [-> | ->]];
      [left | right; left | right; right]; apply denotes_Lits; auto.
  - exists "/", (String c ""), None. cbn. rewrite Hc.
    repeat split; eauto. exists None. repeat split; auto. discriminate.
Qed.

(** The resolver finds a shortcode exactly in the inputs that contain a
    post path once stripped. *)
Lemma extract_None_iff (url : string) :
  extract_shortcode_from_url url = None
  <-> contains_post_path (Str.strip url) = false.
Proof.
  unfold extract_shortcode_from_url.
  destruct (Re.search pattern (Str.strip url)) as [m|] eqn:Hs.
  - apply search_pattern_sound in Hs as (Hc & c & run & Hg & _).
    rewrite Hg, Hc. split; discriminate.
  - split; [intros _ | reflexivity].
    destruct (contains_post_path (Str.strip url)) eqn:Hc; [|reflexivity].
    now apply search_pattern_complete in Hc.
Qed.

Lemma contains_post_path_slash (s : string) :
  contains_post_path s = true -> Str.mem "/" s = true.
Proof.
  intros H. apply contains_post_path_split in H as (pre & t & -> & Ht).
  apply post_path_here_elim in Ht as (seg & c & rest & -> & _).
  rewrite mem_append. cbn. apply orb_true_r.
Qed.

End Resolver.

(* ================================================================== *)
(** * Facts about traces *)
(* ================================================================== *)

Module TraceFacts.

Lemma attempts_app (a b : list event) :
  attempts (a ++ b) = attempts a ++ attempts b.
Proof.
  induction a as [|[p|sc r|p t pat r] a IH]; cbn; auto. now rewrite IH.
Qed.

Lemma yields_app (a b : list event) :
  yields (a ++ b) = yields a ++ yields b.
Proof.
  induction a as [|[p|sc r|p t pat r] a IH]; cbn; auto. now rewrite IH.
Qed.

Lemma fetches_app (a b : list event) :
  fetches (a ++ b) = fetches a ++ fetches b.
Proof.
  induction a as [|[p|sc r|p t pat r] a IH]; cbn; auto. now rewrite IH.
Qed.

Lemma firstn_length_app {A} (a b : list A) :
  firstn (List.length a) (a ++ b) = a.
Proof. induction a as [|x a IH]; cbn; [now destruct b | now rewrite IH]. Qed.

Lemma successes_le_attempts (evs : list event) :
  (0 <= successes evs <= Z.of_nat (List.length (attempts evs)))%Z.
Proof.
  induction evs as [|[p|sc r|p t pat [e|]] evs IH];
    cbn [successes attempts List.length]; lia.
Qed.

End TraceFacts.

(* ================================================================== *)
(** * The loop of [download_profile_posts] *)
(* ================================================================== *)

Module ProfileLoop.
Local Open Scope Z_scope.

Lemma restore_pattern (l : Loader) (p : string) :
  with_filename_pattern (with_filename_pattern l p) (filename_pattern l) = l.
Proof. now destruct l. Qed.

Section Loop.
Context {W : Type} {E : Env W}.

Lemma profile_loop_nil count fault d (st : state W) :
  profile_loop count [] fault d st =
  match fault with
  | Some e => (Raised e, st)
  | None => (Normal d, st)
  end.
Proof. now destruct fault. Qed.

(** One turn of the loop: the element is pulled, then the cap is
    looked at, then the download runs. *)
Lemma profile_loop_cons count post rest fault d (st : state W) :
  profile_loop count (post :: rest) fault d st =
  if (count >? 0) && (d >=? count) then
    (Normal d, record (Yielded post) (world st) st)
  else
    let (w, r) :=
      download_post (world st)
                    (with_filename_pattern (loader st) (shortcode post))
                    post (shortcode post) in
    match r with
    | None => profile_loop count rest fault (d + 1) (item_done w post r st)
    | Some e =>
        if is_Exception e
        then profile_loop count rest fault d (item_done w post r st)
        else (Raised e, item_done w post r st)
    end.
Proof.
  cbn [profile_loop].
  unfold bind at 1. unfold yield at 1.
  destruct ((count >? 0) && (d >=? count)); [reflexivity|].
  unfold bind at 1. unfold try_except at 1.
  unfold bind, print, get_filename_pattern, set_filename_pattern,
    loader_download_post, record, ret; cbn.
  destruct (download_post (world st)
                          (with_filename_pattern (loader st) (shortcode post))
                          post (shortcode post)) as [w [e|]]; cbn.
  - unfold item_done, download_error_line.
    destruct (is_Exception e); cbn; rewrite <- !app_assoc; reflexivity.
  - unfold item_done; cbn.
    rewrite restore_pattern, <- !app_assoc. reflexivity.
Qed.

Lemma cap_reached count d :
  (count >? 0) && (d >=? count) = true <-> 0 < count /\ count <= d.
Proof.
  rewrite andb_true_iff, Z.gtb_ltb, Z.geb_leb, Z.ltb_lt, Z.leb_le.
  tauto.
Qed.

Lemma cap_not_reached count d :
  (count >? 0) && (d >=? count) = false -> 0 < count -> d < count.
Proof.
  intros H Hc.
  destruct (Z.lt_ge_cases d count) as [Hlt|Hge]; [exact Hlt|].
  assert (Ht : (count >? 0) && (d >=? count) = true)
    by (apply cap_reached; lia).
  congruence.
Qed.

Lemma loop_end_success count post rest fault d target pat evs o :
  ~ (0 < count /\ count <= d) ->
  loop_end count rest fault (d + 1) evs o ->
  loop_end count (post :: rest) fault d
           (Yielded post :: Downloaded post target pat None :: evs) o.
Proof.
  intros Hopen H.
  assert (Hs : d + 1 + successes evs
               = d + successes (Yielded post
                                  :: Downloaded post target pat None :: evs))
    by (cbn [successes]; lia).
  destruct H as [Hf Ha Hy | e Hf Ha Hy | x rest' Hc Hge Ha Hy Hnow Hlast
                 | e rest' He Ha Hy Hl].
  - rewrite Hs. apply Exhausted; cbn; congruence.
  - apply Faulted; cbn; congruence.
  - rewrite Hs. apply Capped with (x := x) (rest := rest');
      cbn [attempts yields successes app]; try congruence; try lia.
    intros Hd.
    destruct (Z.le_gt_cases count (d + 1)) as [Hle|Hgt].
    + rewrite (Hnow Hle).
      now exists post, target, pat, [Yielded post].
    + destruct (Hlast Hgt) as (p & t & pt & before & ->).
      now exists p, t, pt, (Yielded post :: Downloaded post target pat None
                              :: before).
  - apply Interrupted with (rest := rest'); cbn; try congruence.
    destruct Hl as (p & t & pt & before & ->).
    now exists p, t, pt, (Yielded post :: Downloaded post target pat None
                            :: before).
Qed.

Lemma loop_end_failure count post rest fault d target pat e evs o :
  ~ (0 < count /\ count <= d) ->
  loop_end count rest fault d evs o ->
  loop_end count (post :: rest) fault d
           (Yielded post :: Downloaded post target pat (Some e) :: evs) o.
Proof.
  intros Hopen H.
  assert (Hs : d + successes evs
               = d + successes (Yielded post
                                  :: Downloaded post target pat (Some e)
                                  :: evs))
    by reflexivity.
  destruct H as [Hf Ha Hy | e' Hf Ha Hy | x rest' Hc Hge Ha Hy Hnow Hlast
                 | e' rest' He Ha Hy Hl].
  - rewrite Hs. apply Exhausted; cbn; congruence.
  - apply Faulted; cbn; congruence.
  - rewrite Hs. apply Capped with (x := x) (rest := rest');
      cbn [attempts yields successes app]; try congruence; try lia.
    intros Hd. destruct (Hlast Hd) as (p & t & pt & before & ->).
    now exists p, t, pt, (Yielded post
                            :: Downloaded post target pat (Some e)
                            :: before).
  - apply Interrupted with (rest := rest'); cbn; try congruence.
    destruct Hl as (p & t & pt & before & ->).
    now exists p, t, pt, (Yielded post
                            :: Downloaded post target pat (Some e)
                            :: before).
Qed.

Lemma cap_open count d :
  (count >? 0) && (d >=? count) = false -> ~ (0 < count /\ count <= d).
Proof. intros H Hc. apply cap_reached in Hc. congruence. Qed.

(** What a run of the loop adds to the trace and to the output, and how
    it ends. *)
Lemma profile_loop_spec : forall posts count fault d (st : state W),
    exists evs lines,
      events (snd (profile_loop count posts fault d st)) = events st ++ evs
      /\ stdout (snd (profile_loop count posts fault d st))
         = stdout st ++ lines
      /\ loop_end count posts fault d evs
                  (fst (profile_loop count posts fault d st))
      /\ targets shortcode evs
      /\ errors_reported evs lines
      /\ fetches evs = []
      /\ (0 < count -> d <= count -> d + successes evs <= count).
Proof.
  induction posts as [|post rest IH]; intros count fault d st.
  - rewrite profile_loop_nil. exists [], [].
    rewrite !app_nil_r.
    repeat split.
    + now destruct fault.
    + now destruct fault.
    + destruct fault as [e|]; cbn [fst].
      * now apply Faulted.
      * replace (Normal d) with (Normal (d + successes []))
          by (f_equal; cbn; lia).
        now apply Exhausted.
    + constructor.
    + intros ev line [].
    + cbn; lia.
  - rewrite profile_loop_cons.
    destruct ((count >? 0) && (d >=? count)) eqn:Hcap.
    + apply cap_reached in Hcap as [Hc Hge].
      exists [Yielded post], []. cbn [fst snd].
      rewrite app_nil_r.
      repeat split; try (cbn; lia).
      * replace (Normal d) with (Normal (d + successes [Yielded post]))
          by (f_equal; cbn; lia).
        apply Capped with (x := post) (rest := rest); cbn; auto; lia.
      * repeat constructor.
      * intros ev line [<-|[]]; discriminate.
    + destruct (download_post (world st)
                  (with_filename_pattern (loader st) (shortcode post))
                  post (shortcode post)) as [w [e|]].
      * destruct (is_Exception e) eqn:He.
        -- destruct (IH count fault d (item_done w post (Some e) st))
             as (evs & lines & Hev & Hout & Hend & Htg & Hrep & Hf & Hb).
           exists (Yielded post
                     :: Downloaded post (shortcode post) (shortcode post)
                                   (Some e) :: evs),
             (("Downloading post " ++ shortcode post ++ " from "
                 ++ date post)%string
                :: download_error_line (shortcode post) e :: lines).
           rewrite Hev, Hout. cbn [item_done events stdout].
           rewrite He, <- !app_assoc.
           repeat split.
           ++ apply loop_end_failure; [now apply cap_open | exact Hend].
           ++ repeat constructor; auto.
           ++ intros ev line [<-|[<-|Hin]] Hline.
              ** discriminate.
              ** cbn in Hline. rewrite He in Hline.
                 inversion Hline. right; left; reflexivity.
              ** right; right. eapply Hrep; eauto.
           ++ exact Hf.
           ++ cbn [successes]. exact Hb.
        -- exists [Yielded post;
                   Downloaded post (shortcode post) (shortcode post)
                              (Some e)],
             [("Downloading post " ++ shortcode post ++ " from "
                 ++ date post)%string].
           cbn [fst snd item_done events stdout]. rewrite He.
           repeat split; try (cbn; lia).
           ++ apply Interrupted with (rest := rest); cbn; auto.
              now exists post, (shortcode post), (shortcode post),
                [Yielded post].
           ++ repeat constructor.
           ++ intros ev line [<-|[<-|[]]] Hline; [discriminate|].
              cbn in Hline. rewrite He in Hline. discriminate.
      * destruct (IH count fault (d + 1) (item_done w post None st))
          as (evs & lines & Hev & Hout & Hend & Htg & Hrep & Hf & Hb).
        exists (Yielded post
                  :: Downloaded post (shortcode post) (shortcode post) None
                  :: evs),
          (("Downloading post " ++ shortcode post ++ " from "
              ++ date post)%string :: lines).
        rewrite Hev, Hout. cbn [item_done events stdout].
        rewrite <- !app_assoc.
        repeat split.
        -- apply loop_end_success; [now apply cap_open | exact Hend].
        -- repeat constructor; auto.
        -- intros ev line [<-|[<-|Hin]] Hline; try discriminate.
           right. eapply Hrep; eauto.
        -- exact Hf.
        -- cbn [successes]. intros Hc Hd.
           pose proof (cap_not_reached count d Hcap Hc). lia.
Qed.

Lemma loop_end_prefix count posts fault d evs o :
  loop_end count posts fault d evs o ->
  exists rest, posts = attempts evs ++ rest.
Proof.
  intros [Hf Ha Hy | e Hf Ha Hy | x rest Hc Hge Ha Hy Hnow Hlast
          | e rest He Ha Hy Hl].
  - exists []. now rewrite app_nil_r.
  - exists []. now rewrite app_nil_r.
  - now exists (x :: rest).
  - now exists rest.
Qed.

(** The elements pulled are the attempted ones, plus at most one. *)
Lemma loop_end_yields count posts fault d evs o :
  loop_end count posts fault d evs o ->
  yields evs = attempts evs
  \/ exists x, yields evs = attempts evs ++ [x].
Proof.
  intros [Hf Ha Hy | e Hf Ha Hy | x rest Hc Hge Ha Hy Hnow Hlast
          | e rest He Ha Hy Hl].
  - left; congruence.
  - left; congruence.
  - right; now exists x.
  - now left.
Qed.

Lemma loop_end_normal count posts fault d evs d' :
  loop_end count posts fault d evs (Normal d') ->
  d' = d + successes evs
  /\ ((attempts evs = posts /\ yields evs = posts)
      \/ (0 < count /\ count <= d + successes evs
          /\ exists x rest,
              posts = attempts evs ++ x :: rest
              /\ yields evs = attempts evs ++ [x]
              /\ (d < count ->
                  exists p target pat before,
                    evs = before ++ [Downloaded p target pat None;
                                     Yielded x]))).
Proof.
  intros H. inversion H as [Hf Ha Hy | | x rest Hc Hge Ha Hy Hnow Hlast | ];
    subst; split; auto.
  right. repeat split; auto. exists x, rest. auto.
Qed.

Lemma loop_end_raised count posts fault d evs e :
  loop_end count posts fault d evs (Raised e) ->
  (fault = Some e /\ attempts evs = posts /\ yields evs = posts)
  \/ (is_Exception e = false
      /\ yields evs = attempts evs
      /\ exists p target pat before,
          evs = before ++ [Downloaded p target pat (Some e)]).
Proof.
  intros H. inversion H as [ | e' Hf Ha Hy | | e' rest He Ha Hy Hl]; subst.
  - left; auto.
  - right; auto.
Qed.

Lemma loop_end_not_exited count posts fault d evs c :
  ~ loop_end count posts fault d evs (Exited c).
Proof. intros H; inversion H. Qed.

Lemma profile_loop_spec_events count posts fault d (st : state W) :
  exists evs,
    events (snd (profile_loop count posts fault d st)) = events st ++ evs
    /\ targets shortcode evs
    /\ fetches evs = [].
Proof.
  destruct (profile_loop_spec posts count fault d st)
    as (evs & lines & Hev & _ & _ & Htg & _ & Hf & _).
  now exists evs.
Qed.
End Loop.

End ProfileLoop.

(* ================================================================== *)
(** * [download_post_by_shortcode] and the shortcode file *)
(* ================================================================== *)

Module ByShortcode.

Section Fn.
Context {W : Type} {E : Env W}.

(** The function by cases on what the collaborator does. *)
Lemma download_post_by_shortcode_eq sc dir (st : state W) :
  download_post_by_shortcode sc dir st =
  let (w1, r1) := Post_from_shortcode (world st) sc in
  match r1 with
  | inl e => (reported (Some e), fetch_failed w1 sc e st)
  | inr post =>
      let (w2, r2) :=
        download_post w1 (with_filename_pattern (loader st) sc) post sc in
      (reported r2, post_done w2 sc post r2 st)
  end.
Proof.
  unfold download_post_by_shortcode.
  unfold try_except at 1. unfold bind at 1. unfold print at 1.
  unfold bind at 1. unfold from_shortcode at 1. cbn [world].
  destruct (Post_from_shortcode (world st) sc) as [w1 [e|post]].
  - unfold fetch_failed, fetch_error_line, reported, record.
    destruct e; cbn; rewrite <- ?app_assoc; reflexivity.
  - unfold try_except, bind, print, get_filename_pattern,
      set_filename_pattern, loader_download_post, record, ret; cbn.
    destruct (download_post w1 (with_filename_pattern (loader st) sc)
                            post sc) as [w2 [e|]]; cbn.
    + unfold post_done, download_error_line, reported.
      destruct e; cbn; rewrite <- ?app_assoc; reflexivity.
    + unfold post_done, reported; cbn.
      rewrite ProfileLoop.restore_pattern, <- ?app_assoc. reflexivity.
Qed.

(** The loader's pattern after one call: the value from before when the
    post could not be fetched or its download returned, the shortcode when
    the download raised. *)
Lemma filename_pattern_after_call sc dir (st : state W) :
  filename_pattern (loader (snd (download_post_by_shortcode sc dir st)))
  = let (w1, r1) := Post_from_shortcode (world st) sc in
    match r1 with
    | inl _ => filename_pattern (loader st)
    | inr post =>
        match snd (download_post w1 (with_filename_pattern (loader st) sc)
                                 post sc) with
        | None => filename_pattern (loader st)
        | Some _ => sc
        end
    end.
Proof.
  rewrite download_post_by_shortcode_eq.
  destruct (Post_from_shortcode (world st) sc) as [w1 [e|post]];
    [reflexivity|].
  now destruct (download_post w1 (with_filename_pattern (loader st) sc)
                              post sc) as [w2 [e|]].
Qed.

(** One call: one fetch of [sc], at most one download, into the
    directory [sc], and a line for whichever of them failed. *)
Lemma download_post_by_shortcode_spec sc dir (st : state W) :
  exists evs lines,
    events (snd (download_post_by_shortcode sc dir st)) = events st ++ evs
    /\ stdout (snd (download_post_by_shortcode sc dir st))
       = stdout st ++ lines
    /\ fetches evs = [sc]
    /\ yields evs = []
    /\ targets (fun _ => sc) evs
    /\ errors_reported evs lines
    /\ ((exists b, fst (download_post_by_shortcode sc dir st) = Normal b)
        \/ (exists e, fst (download_post_by_shortcode sc dir st) = Raised e
                      /\ is_Exception e = false)).
Proof.
  rewrite download_post_by_shortcode_eq.
  destruct (Post_from_shortcode (world st) sc) as [w1 [e|post]].
  - eexists; eexists. cbn [fst snd fetch_failed events stdout].
    repeat split; try reflexivity.
    + repeat constructor.
    + intros ev line [<-|[]] Hline. cbn in Hline.
      destruct (is_Exception e); inversion Hline.
      right; left; reflexivity.
    + unfold reported. destruct (is_Exception e) eqn:He; eauto.
  - destruct (download_post w1 (with_filename_pattern (loader st) sc)
                            post sc) as [w2 r].
    eexists; eexists. cbn [fst snd post_done events stdout].
    repeat split; try reflexivity.
    + repeat constructor.
    + intros ev line [<-|[<-|[]]] Hline; [discriminate|].
      cbn in Hline. destruct r as [e|]; [|discriminate].
      destruct (is_Exception e); inversion Hline.
      right; right; left; reflexivity.
    + unfold reported. destruct r as [e|]; eauto.
      destruct (is_Exception e) eqn:He; eauto.
Qed.

Lemma for_each_cons {A} (x : A) xs body (st : state W) :
  for_each (x :: xs) body st =
  match body x st with
  | (Normal _, st') => for_each xs body st'
  | (Raised e, st') => (Raised e, st')
  | (Exited c, st') => (Exited c, st')
  end.
Proof. reflexivity. Qed.

(** The loop of [download_shortcodes_from_file]: every shortcode is
    fetched, in order, whatever happened to the ones before it; only an
    interrupt ends it early. *)
Lemma for_each_body_spec (body : string -> M unit) :
  (forall sc st,
      body sc st =
      match download_post_by_shortcode sc "." st with
      | (Normal _, st') => (Normal tt, st')
      | (Raised e, st') => (Raised e, st')
      | (Exited c, st') => (Exited c, st')
      end) ->
  forall shortcodes (st : state W),
    exists evs lines,
      events (snd (for_each shortcodes body st)) = events st ++ evs
      /\ stdout (snd (for_each shortcodes body st)) = stdout st ++ lines
      /\ errors_reported evs lines
      /\ yields evs = []
      /\ ((fst (for_each shortcodes body st) = Normal tt
           /\ fetches evs = shortcodes)
          \/ (exists e rest,
                 fst (for_each shortcodes body st) = Raised e
                 /\ is_Exception e = false
                 /\ shortcodes = fetches evs ++ rest)).
Proof.
  intros Hbody.
  induction shortcodes as [|sc rest IH]; intros st.
  - exists [], []. cbn. rewrite !app_nil_r.
    repeat split; auto. intros ev line [].
  - rewrite for_each_cons, Hbody.
    destruct (download_post_by_shortcode_spec sc "." st)
      as (evs1 & lines1 & Hev1 & Hout1 & Hf1 & Hy1 & _ & Hrep1 & Hend1).
    destruct (download_post_by_shortcode sc "." st) as [o st1].
    cbn [fst snd] in *.
    destruct Hend1 as [[b ->] | (e & -> & He)].
    + destruct (IH st1)
        as (evs2 & lines2 & Hev2 & Hout2 & Hrep2 & Hy2 & Hend2).
      exists (evs1 ++ evs2), (lines1 ++ lines2).
      rewrite Hev2, Hout2, Hev1, Hout1, <- !app_assoc.
      repeat split.
      * intros ev line Hin Hline. apply in_or_app.
        apply in_app_or in Hin as [Hin|Hin]; eauto.
      * rewrite TraceFacts.yields_app, Hy1, Hy2. reflexivity.
      * rewrite TraceFacts.fetches_app, Hf1.
        destruct Hend2 as [[Ho Hf]|(e & rest' & Ho & He & Hf)].
        -- left. now rewrite Hf.
        -- right. exists e, rest'.
           repeat split; auto. cbn [app]. congruence.
    + exists evs1, lines1. cbn [fst snd].
      repeat split; auto.
      right. exists e, rest. rewrite Hf1. auto.
Qed.

Lemma for_each_shortcodes_spec : forall shortcodes (st : state W),
    exists evs lines,
      events (snd (for_each shortcodes
                     (fun sc => bind (download_post_by_shortcode sc ".")
                                     (fun _ => ret tt)) st))
      = events st ++ evs
      /\ stdout (snd (for_each shortcodes
                        (fun sc => bind (download_post_by_shortcode sc ".")
                                        (fun _ => ret tt)) st))
         = stdout st ++ lines
      /\ errors_reported evs lines
      /\ yields evs = []
      /\ ((fst (for_each shortcodes
                  (fun sc => bind (download_post_by_shortcode sc ".")
                                  (fun _ => ret tt)) st) = Normal tt
           /\ fetches evs = shortcodes)
          \/ (exists e rest,
                 fst (for_each shortcodes
                        (fun sc => bind (download_post_by_shortcode sc ".")
                                        (fun _ => ret tt)) st) = Raised e
                 /\ is_Exception e = false
                 /\ shortcodes = fetches evs ++ rest)).
Proof.
  apply for_each_body_spec. intros sc st. unfold bind, ret.
  now destruct (download_post_by_shortcode sc "." st) as [[b|e|c] st'].
Qed.
End Fn.

End ByShortcode.

(* ================================================================== *)
(** * [download_profile_posts], [create_instance] and [main] *)
(* ================================================================== *)

Module Toplevel.

Section Fn.
Context {W : Type} {E : Env W}.

(** Whatever happens to the profile and its listing, the downloads of
    [download_profile_posts] are those of its loop. *)
Lemma download_profile_posts_events name dir count po (st : state W) :
  exists evs,
    events (snd (download_profile_posts name dir count po st))
    = events st ++ evs
    /\ targets shortcode evs
    /\ fetches evs = [].
Proof.
  unfold download_profile_posts.
  unfold try_except at 1. unfold bind at 1. unfold from_username at 1.
  destruct (Profile_from_username (world st) name) as [w [e|profile]].
  - exists []. rewrite app_nil_r.
    destruct e; cbn; repeat split; constructor.
  - unfold bind at 1. unfold print at 1. unfold bind at 1.
    match goal with
    | |- context [profile_loop ?c ?l ?f ?d ?s] =>
        destruct (ProfileLoop.profile_loop_spec_events c l f d s)
        as (evs & Hev & Htg & Hf);
        destruct (profile_loop c l f d s) as [o st2]
    end.
    cbn [snd events] in Hev. exists evs.
    destruct o as [d|e|c]; [|destruct e|]; cbn; auto.
Qed.

(** [download_profile_posts] once the profile is found: the loop runs after
    the first line, and the function ends as the loop does, except that an
    [Exception] out of the listing becomes exit status 1. *)
Lemma download_profile_posts_found name dir count po (st : state W)
      w profile :
  Profile_from_username (world st) name = (w, inr profile) ->
  fst (download_profile_posts name dir count po st)
  = match fst (profile_loop count (listing profile) (listing_fault profile) 0
                 {| world := w; loader := loader st;
                    stdout := stdout st
                                ++ [("Downloading posts from @" ++ name
                                       ++ "...")%string];
                    stderr := stderr st; events := events st |}) with
    | Normal _ => Normal tt
    | Raised e => if is_Exception e then Exited 1 else Raised e
    | Exited c => Exited c
    end.
Proof.
  intros Hfound.
  unfold download_profile_posts.
  unfold try_except at 1. unfold bind at 1. unfold from_username at 1.
  rewrite Hfound.
  unfold bind at 1. unfold print at 1. unfold bind at 1.
  cbn [world loader stdout stderr events].
  match goal with
  | |- context [profile_loop ?c ?l ?f ?d ?s] =>
      destruct (profile_loop c l f d s) as [[d'|e|c'] st2]
  end; [reflexivity | destruct e; reflexivity | reflexivity].
Qed.

(** With a profile that exists and a listing that does not raise, no
    failed download makes [download_profile_posts] exit: it returns, unless
    a download is interrupted. *)
Lemma download_profile_posts_returns name dir count po (st : state W)
      w profile :
  Profile_from_username (world st) name = (w, inr profile) ->
  listing_fault profile = None ->
  fst (download_profile_posts name dir count po st) = Normal tt
  \/ exists e,
      fst (download_profile_posts name dir count po st) = Raised e
      /\ is_Exception e = false.
Proof.
  intros Hfound Hfault.
  rewrite (download_profile_posts_found name dir count po st w profile Hfound).
  rewrite Hfault.
  match goal with
  | |- context [profile_loop ?c ?l ?f ?d ?s] =>
      destruct (ProfileLoop.profile_loop_spec l c f d s)
      as (evs & lines & _ & _ & Hend & _);
      destruct (fst (profile_loop c l f d s)) as [d'|e|c']
  end.
  - now left.
  - apply ProfileLoop.loop_end_raised in Hend
      as [[Hf _]|(He & _)]; [discriminate|].
    right. exists e. now rewrite He.
  - now apply ProfileLoop.loop_end_not_exited in Hend.
Qed.

(** [download_shortcodes_from_file] once the file is read. *)
Lemma download_shortcodes_from_file_found path (st : state W) w lines :
  os_path_exists (world st) path = true ->
  read_lines (world st) path = (w, inr lines) ->
  download_shortcodes_from_file path st
  = match for_each (shortcodes_of_lines lines)
                   (fun sc => bind (download_post_by_shortcode sc ".")
                                   (fun _ => ret tt))
                   {| world := w; loader := loader st;
                      stdout := stdout st
                                  ++ [("Found "
                                         ++ Str.of_nat
                                              (List.length
                                                 (shortcodes_of_lines lines))
                                         ++ " shortcodes in " ++ path
                                         ++ ". Starting download...")%string];
                      stderr := stderr st; events := events st |} with
    | (Normal _, st2) => print "All shortcodes processed." st2
    | (Raised e, st2) => (Raised e, st2)
    | (Exited c, st2) => (Exited c, st2)
    end.
Proof.
  intros Hexists Hread.
  unfold download_shortcodes_from_file.
  unfold bind at 1. unfold path_exists at 1. rewrite Hexists. cbn [negb].
  unfold bind at 1. unfold open_lines at 1. rewrite Hread.
  unfold bind at 1. unfold print at 1. unfold bind at 1.
  reflexivity.
Qed.

(** With a file that exists and can be read, every non-blank line is
    fetched, in file order, unless a call is interrupted. *)
Lemma download_shortcodes_from_file_reads path (st : state W) w lines :
  os_path_exists (world st) path = true ->
  read_lines (world st) path = (w, inr lines) ->
  exists evs,
    events (snd (download_shortcodes_from_file path st)) = events st ++ evs
    /\ ((fst (download_shortcodes_from_file path st) = Normal tt
         /\ fetches evs = shortcodes_of_lines lines)
        \/ (exists e rest,
               fst (download_shortcodes_from_file path st) = Raised e
               /\ is_Exception e = false
               /\ shortcodes_of_lines lines = fetches evs ++ rest)).
Proof.
  intros Hexists Hread.
  rewrite (download_shortcodes_from_file_found path st w lines Hexists Hread).
  match goal with
  | |- context [for_each ?l ?b ?s] =>
      destruct (ByShortcode.for_each_shortcodes_spec l s)
      as (evs & out & Hev & _ & _ & _ & Hend);
      destruct (for_each l b s) as [o st2]
  end.
  cbn [fst snd events] in Hev, Hend. exists evs.
  destruct Hend as [[-> Hf]|(e & rest & -> & He & Hf)].
  - split; [exact Hev|]. left. auto.
  - split; [exact Hev|]. right. now exists e, rest.
Qed.

Lemma create_instance_events user (st : state W) :
  events (snd (create_instance user st)) = events st.
Proof.
  unfold create_instance, bind. cbn.
  destruct (given user); [|reflexivity].
  unfold try_except, bind, ask_password, loader_login, print, sys_exit.
  cbn. destruct (getpass (world st) _) as [w pw]. cbn.
  destruct (login w (value user) pw) as [w' [e|]]; [destruct e|];
    reflexivity.
Qed.

(** File mode of [main]. *)
Lemma main_file_mode args (st st1 : state W) :
  given (shortcodes_file args) = true ->
  create_instance (username args) st = (Normal tt, st1) ->
  main args st
  = download_shortcodes_from_file (value (shortcodes_file args)) st1.
Proof.
  intros Hfile Hsession. unfold main. rewrite Hfile.
  unfold bind at 1. now rewrite Hsession.
Qed.

Lemma missing_file path (st : state W) :
  os_path_exists (world st) path = false ->
  download_shortcodes_from_file path st
  = print ("Shortcode file '" ++ path ++ "' not found.") st.
Proof.
  intros H. unfold download_shortcodes_from_file, bind, path_exists.
  now rewrite H.
Qed.

(** URL mode of [main] when the resolver finds nothing. *)
Lemma main_unresolved_url args (st st1 : state W) :
  given (shortcodes_file args) = false ->
  given (post_url args) = true ->
  extract_shortcode_from_url (value (post_url args)) = None ->
  create_instance (username args) st = (Normal tt, st1) ->
  main args st
  = bind (print "Error: Could not extract shortcode from the provided URL")
         (fun _ => sys_exit 1) st1.
Proof.
  intros Hfile Hurl Hnone Hsession. unfold main.
  rewrite Hfile, Hurl, Hnone, orb_true_r. cbn [negb].
  unfold bind at 1. unfold ret at 1.
  unfold bind at 1. now rewrite Hsession.
Qed.
End Fn.

End Toplevel.

(* ================================================================== *)
(** * The claims *)
(* ================================================================== *)




(** C2, as stated, fails.  With cap 1 over three items of which the first
    fails, the loop attempts two items, not one. *)
Lemma C2_cap_does_not_count_attempts :
  let posts := Demo.alice Demo.w0 in
  let cap := 1%Z in
  let evs :=
    events (snd (profile_loop cap posts None 0 (initial Demo.w0))) in
  (0 < cap)%Z
  /\ (cap < Z.of_nat (List.length posts))%Z
  /\ map shortcode (attempts evs) = ["BAD"; "GOOD"]
  /\ Z.of_nat (List.length (attempts evs)) <> cap
  /\ attempts evs <> firstn (Z.to_nat cap) posts.
Proof. vm_compute. repeat split; discriminate. Qed.

(** C2 (amended): the cap counts downloads that returned.  For a cap
    [count > 0] the attempted items are the first items of the listing in its
    order and at most [count] of their downloads succeed; when the loop ends
    normally, either the whole listing was attempted or exactly [count]
    downloads succeeded and the last attempt is one of them; so a listing
    longer than the cap whose attempts all succeed has exactly its first
    [count] items attempted. *)
Theorem C2_cap_counts_successes :
  forall (W : Type) (E : Env W) count posts fault (st : state W),
    (0 < count)%Z ->
    exists evs,
      events (snd (profile_loop count posts fault 0 st)) = events st ++ evs
      /\ (exists rest, posts = attempts evs ++ rest)
      /\ (successes evs <= count)%Z
      /\ (forall d,
             fst (profile_loop count posts fault 0 st) = Normal d ->
             d = successes evs
             /\ (attempts evs = posts
                 \/ (successes evs = count
                     /\ exists p target pat before x,
                         evs = before ++ [Downloaded p target pat None;
                                          Yielded x]))
             /\ ((count < Z.of_nat (List.length posts))%Z ->
                 successes evs = Z.of_nat (List.length (attempts evs)) ->
                 attempts evs = firstn (Z.to_nat count) posts)).
Proof.
  intros W E count posts fault st Hc.
  destruct (ProfileLoop.profile_loop_spec posts count fault 0 st)
    as (evs & lines & Hev & _ & Hend & _ & _ & _ & Hb).
  assert (Hle : (successes evs <= count)%Z) by (specialize (Hb Hc); lia).
  exists evs. repeat split; auto.
  - eapply ProfileLoop.loop_end_prefix; eauto.
  - rewrite H in Hend. apply ProfileLoop.loop_end_normal in Hend. tauto.
  - rewrite H in Hend.
    apply ProfileLoop.loop_end_normal in Hend
      as [_ [[Ha _]|(_ & Hge & x & rest & _ & _ & Hlast)]]; [now left|].
    right. split; [lia|].
    destruct Hlast as (p & t & pt & before & Hevs); [lia|].
    now exists p, t, pt, before, x.
  - intros Hlong Hall. rewrite H in Hend.
    apply ProfileLoop.loop_end_normal in Hend
      as [_ [[Ha _]|(_ & Hge & x & rest & Hp & _ & _)]].
    + rewrite Ha in Hall. lia.
    + assert (Hn : Z.to_nat count = List.length (attempts evs)) by lia.
      rewrite Hn, Hp. symmetry. apply TraceFacts.firstn_length_app.
Qed.

(** The same claim on a concrete run: nothing fails, the cap is 1 and the
    listing has three items. *)
Lemma C2_cap_counts_successes_witness :
  exists evs,
    events (snd (profile_loop 1 (Demo.alice Demo.w1) None 0
                              (initial Demo.w1))) = [] ++ evs
    /\ (exists rest, Demo.alice Demo.w1 = attempts evs ++ rest)
    /\ (successes evs <= 1)%Z
    /\ (forall d,
           fst (profile_loop 1 (Demo.alice Demo.w1) None 0 (initial Demo.w1))
           = Normal d ->
           d = successes evs
           /\ (attempts evs = Demo.alice Demo.w1
               \/ (successes evs = 1%Z
                   /\ exists p target pat before x,
                       evs = before ++ [Downloaded p target pat None;
                                        Yielded x]))
           /\ ((1 < Z.of_nat (List.length (Demo.alice Demo.w1)))%Z ->
               successes evs = Z.of_nat (List.length (attempts evs)) ->
               attempts evs = firstn (Z.to_nat 1) (Demo.alice Demo.w1))).
Proof.
  apply (@C2_cap_counts_successes Demo.world Demo.env 1
           (Demo.alice Demo.w1) None (initial Demo.w1)).
  reflexivity.
Defined.

(** C3, as stated, fails.  With cap 1 over three items that all download,
    the listing hands out its second item before the cap is looked at. *)
Lemma C3_next_element_is_pulled :
  let posts := Demo.alice Demo.w1 in
  let cap := 1%Z in
  let evs :=
    events (snd (profile_loop cap posts None 0 (initial Demo.w1))) in
  (0 < cap)%Z
  /\ (cap < Z.of_nat (List.length posts))%Z
  /\ map shortcode (attempts evs) = ["A1"]
  /\ map shortcode (yields evs) = ["A1"; "B2"]
  /\ nth_error posts (Z.to_nat cap) = Some (Demo.post "B2")
  /\ In (Demo.post "B2") (yields evs).
Proof. vm_compute. repeat split; auto. Qed.

(** C3 (amended): the cap is looked at after the next element has been
    pulled and before it is attempted.  The elements pulled are always the
    attempted ones plus at most one; when the loop ends normally they are the
    listing up to and including the element after the last attempted one, so
    whenever part of the listing is left unattempted exactly one element was
    pulled and not attempted; with a cap [count > 0], a longer listing and
    no failed attempt, the elements pulled are the first [count + 1]. *)
Theorem C3_cap_checked_after_pull :
  forall (W : Type) (E : Env W) count posts fault (st : state W),
    exists evs,
      events (snd (profile_loop count posts fault 0 st)) = events st ++ evs
      /\ (yields evs = attempts evs
          \/ exists x, yields evs = attempts evs ++ [x])
      /\ (forall d,
             fst (profile_loop count posts fault 0 st) = Normal d ->
             yields evs = firstn (S (List.length (attempts evs))) posts
             /\ (attempts evs <> posts ->
                 (0 < count)%Z
                 /\ exists x,
                     nth_error posts (List.length (attempts evs)) = Some x
                     /\ yields evs = attempts evs ++ [x])
             /\ ((0 < count)%Z ->
                 (count < Z.of_nat (List.length posts))%Z ->
                 successes evs = Z.of_nat (List.length (attempts evs)) ->
                 yields evs = firstn (S (Z.to_nat count)) posts)).
Proof.
  intros W E count posts fault st.
  destruct (ProfileLoop.profile_loop_spec posts count fault 0 st)
    as (evs & lines & Hev & _ & Hend & _ & _ & _ & Hb).
  exists evs. repeat split; auto.
  - eapply ProfileLoop.loop_end_yields; eauto.
  - rewrite H in Hend.
    apply ProfileLoop.loop_end_normal in Hend
      as [_ [[Ha Hy]|(_ & _ & x & rest & Hp & Hy & _)]].
    + rewrite Hy, Ha. symmetry. apply firstn_all2. lia.
    + rewrite Hy, Hp.
      replace (S (List.length (attempts evs)))
        with (List.length (attempts evs) + 1) by lia.
      now rewrite firstn_app_2.
  - rewrite H in Hend.
    apply ProfileLoop.loop_end_normal in Hend
      as [_ [[Ha Hy]|(Hc & _ & x & rest & Hp & Hy & _)]]; [easy | exact Hc].
  - rewrite H in Hend.
    apply ProfileLoop.loop_end_normal in Hend
      as [_ [[Ha Hy]|(Hc & _ & x & rest & Hp & Hy & _)]]; [easy|].
    exists x. split; [|exact Hy].
    rewrite Hp, nth_error_app2, Nat.sub_diag by lia. reflexivity.
  - intros Hc Hlong Hall. rewrite H in Hend.
    apply ProfileLoop.loop_end_normal in Hend
      as [_ [[Ha Hy]|(_ & Hge & x & rest & Hp & Hy & _)]].
    + specialize (Hb Hc). rewrite Ha in Hall. lia.
    + specialize (Hb Hc).
      assert (Hn : Z.to_nat count = List.length (attempts evs)) by lia.
      rewrite Hn, Hy, Hp.
      replace (S (List.length (attempts evs)))
        with (List.length (attempts evs) + 1) by lia.
      now rewrite firstn_app_2.
Qed.

(** The same on a concrete run: cap 1 over the three posts A1, B2, C3, which
    all download. *)
Lemma C3_cap_checked_after_pull_witness :
  exists evs,
    events (snd (profile_loop 1 (Demo.alice Demo.w1) None 0
                              (initial Demo.w1))) = evs
    /\ attempts evs = [Demo.post "A1"]
    /\ yields evs = [Demo.post "A1"; Demo.post "B2"].
Proof.
  destruct (@C3_cap_checked_after_pull Demo.world Demo.env 1
              (Demo.alice Demo.w1) None (initial Demo.w1))
    as (evs & Hev & _ & Hnormal).
  exists evs. split; [exact Hev|].
  destruct (Hnormal 1%Z eq_refl) as (Hy & _ & _).
  cbn in Hev. subst evs. split; [reflexivity | exact Hy].
Defined.

(** C4, as stated, fails on the exit status.  In file mode with a path that
    does not exist the script prints its diagnostic and ends with status 0. *)
Lemma C4_missing_file_exits_zero :
  let args := Demo.file_args "nope.txt" in
  given (shortcodes_file args) = true
  /\ os_path_exists Demo.w0 "nope.txt" = false
  /\ stdout (snd (script args Demo.w0))
     = ["Shortcode file 'nope.txt' not found."]
  /\ fst (script args Demo.w0) = 0%Z.
Proof. vm_compute. repeat split. Qed.

(** C4 (amended): a missing shortcode file is reported and ends the run
    normally.  In file mode, once the session is set up, a path that does not
    exist makes the script print the diagnostic as its last line, fetch and
    download nothing, and end with status 0. *)
Theorem C4_missing_file_is_reported :
  forall (W : Type) (E : Env W) args (w : W) (st1 : state W),
    given (shortcodes_file args) = true ->
    create_instance (username args) (initial w) = (Normal tt, st1) ->
    os_path_exists (world st1) (value (shortcodes_file args)) = false ->
    script args w
    = (0%Z,
       {| world := world st1;
          loader := loader st1;
          stdout := stdout st1
                      ++ [("Shortcode file '" ++ value (shortcodes_file args)
                             ++ "' not found.")%string];
          stderr := stderr st1;
          events := [] |}).
Proof.
  intros W E args w st1 Hfile Hsession Hmissing.
  unfold script.
  rewrite (Toplevel.main_file_mode args (initial w) st1 Hfile Hsession).
  rewrite (Toplevel.missing_file _ st1 Hmissing).
  pose proof (Toplevel.create_instance_events (username args) (initial w))
    as Hev.
  rewrite Hsession in Hev. cbn in Hev.
  unfold print. now rewrite Hev.
Qed.

(** The same on a concrete run: file mode, no login, a path that does not
    exist. *)
Lemma C4_missing_file_is_reported_witness :
  script (Demo.file_args "nope.txt") Demo.w0
  = (0%Z,
     {| world := Demo.w0;
        loader := new_loader;
        stdout := ["Shortcode file 'nope.txt' not found."];
        stderr := [];
        events := [] |}).
Proof.
  apply (@C4_missing_file_is_reported Demo.world Demo.env
           (Demo.file_args "nope.txt") Demo.w0 (initial Demo.w0));
    reflexivity.
Defined.

(** C5, as stated, fails.  The resolver does not hand a bare identifier
    back: on [ABC123] it finds nothing. *)
Lemma C5_identifier_is_not_passed_through :
  Str.forallb ident_char "ABC123" = true
  /\ extract_shortcode_from_url "ABC123" = None
  /\ extract_shortcode_from_url "ABC123" <> Some "ABC123".
Proof. vm_compute. repeat split; discriminate. Qed.

(** C5 (amended): for every input that consists solely of characters of the
    class [[A-Za-z0-9_-]], the resolver returns no shortcode. *)
Theorem C5_identifier_is_not_resolved :
  forall s : string,
    Str.forallb ident_char s = true ->
    extract_shortcode_from_url s = None.
Proof.
  intros s Hs. apply Resolver.extract_None_iff.
  destruct (contains_post_path (Str.strip s)) eqn:Hc; [|reflexivity].
  apply Resolver.contains_post_path_slash in Hc.
  rewrite (StrFacts.forallb_mem ident_char "/" (Str.strip s)) in Hc;
    [discriminate | now apply StrFacts.forallb_strip | reflexivity].
Qed.

(** The same on a concrete identifier. *)
Lemma C5_identifier_is_not_resolved_witness :
  extract_shortcode_from_url "XyZ_1-23" = None.
Proof.
  apply (C5_identifier_is_not_resolved "XyZ_1-23"). reflexivity.
Defined.

(** C6: malformed URLs are to be rejected, and the code does not reject a
    URL with another host.  The pattern spells out the optional scheme and
    [www.] before [instagram.com], but it is searched anywhere in the
    input, so what stands before [instagram.com/] is never looked at: the
    URL [https://notinstagram.com/p/ABC123/], whose host is
    [notinstagram.com], is resolved to [ABC123], and so is a URL of
    [example.com] that carries a post path in its query. *)
Lemma C6_wrong_host_is_resolved :
  spec_host "https://notinstagram.com/p/ABC123/" = "notinstagram.com"
  /\ spec_host "https://notinstagram.com/p/ABC123/" <> "instagram.com"
  /\ extract_shortcode_from_url "https://notinstagram.com/p/ABC123/"
     = Some "ABC123"
  /\ spec_host "https://example.com/?next=instagram.com/reel/Zz9/"
     = "example.com"
  /\ extract_shortcode_from_url
       "https://example.com/?next=instagram.com/reel/Zz9/" = Some "Zz9".
Proof. vm_compute. repeat split; discriminate. Qed.

(** The part of the rejection that the code does: an input that, once
    stripped, contains nowhere the text [instagram.com/] followed by [p/],
    [reel/] or [tv/] and a character of the identifier class, has no
    shortcode. *)
Theorem C6_no_post_path_is_rejected :
  forall url : string,
    contains_post_path (Str.strip url) = false ->
    extract_shortcode_from_url url = None.
Proof. intros url H. now apply Resolver.extract_None_iff. Qed.

(** The same on two concrete URLs: the right host without a post segment,
    and a post segment under another host. *)
Lemma C6_no_post_path_is_rejected_witness :
  extract_shortcode_from_url "https://www.instagram.com/stories/ABC123/" = None
  /\ extract_shortcode_from_url "https://example.com/p/ABC123/" = None.
Proof.
  split.
  - apply (C6_no_post_path_is_rejected
             "https://www.instagram.com/stories/ABC123/"). reflexivity.
  - apply (C6_no_post_path_is_rejected "https://example.com/p/ABC123/").
    reflexivity.
Defined.

(** C7, as stated, fails.  In URL mode an input the resolver rejects ends
    the process with status 1. *)
Lemma C7_unresolved_url_exits_one :
  let args := Demo.url_args "https://example.com/x" in
  extract_shortcode_from_url "https://example.com/x" = None
  /\ stdout (snd (script args Demo.w0))
     = ["Error: Could not extract shortcode from the provided URL"]
  /\ fst (script args Demo.w0) = 1%Z
  /\ fst (script args Demo.w0) <> 0%Z.
Proof. vm_compute. repeat split; discriminate. Qed.

(** C7 (amended): a URL that cannot be resolved is fatal.  In URL mode, once
    the session is set up, an input in which the resolver finds no shortcode
    makes the script print its error as the last line, fetch and download
    nothing, and end with status 1. *)
Theorem C7_unresolved_url_is_fatal :
  forall (W : Type) (E : Env W) args (w : W) (st1 : state W),
    given (shortcodes_file args) = false ->
    given (post_url args) = true ->
    extract_shortcode_from_url (value (post_url args)) = None ->
    create_instance (username args) (initial w) = (Normal tt, st1) ->
    script args w
    = (1%Z,
       {| world := world st1;
          loader := loader st1;
          stdout := stdout st1
                      ++ ["Error: Could not extract shortcode from the provided URL"];
          stderr := stderr st1;
          events := [] |}).
Proof.
  intros W E args w st1 Hfile Hurl Hnone Hsession.
  unfold script.
  rewrite (Toplevel.main_unresolved_url args (initial w) st1
             Hfile Hurl Hnone Hsession).
  pose proof (Toplevel.create_instance_events (username args) (initial w))
    as Hev.
  rewrite Hsession in Hev. cbn in Hev.
  unfold bind, print, sys_exit. now rewrite Hev.
Qed.

(** The same on a concrete run: URL mode, no login, a bare identifier as
    the URL. *)
Lemma C7_unresolved_url_is_fatal_witness :
  script (Demo.url_args "ABC123") Demo.w0
  = (1%Z,
     {| world := Demo.w0;
        loader := new_loader;
        stdout := ["Error: Could not extract shortcode from the provided URL"];
        stderr := [];
        events := [] |}).
Proof.
  apply (@C7_unresolved_url_is_fatal Demo.world Demo.env
           (Demo.url_args "ABC123") Demo.w0 (initial Demo.w0));
    reflexivity.
Defined.

(** C8 fails on the code when the download raises: the assignment that puts
    the pattern back is skipped.  A post whose download raises leaves
    [loader.filename_pattern] set to its shortcode, on both paths, and the
    next item then takes that value for the original. *)
Theorem C8_pattern_not_restored_after_failure :
  let st := initial Demo.w0 in
  filename_pattern (loader st) = "{date_utc}_UTC"
  /\ fst (download_post_by_shortcode "BAD" "downloads" st) = Normal false
  /\ filename_pattern
       (loader (snd (download_post_by_shortcode "BAD" "downloads" st)))
     = "BAD"
  /\ fst (profile_loop 0 [Demo.post "BAD"] None 0 st) = Normal 0%Z
  /\ filename_pattern
       (loader (snd (profile_loop 0 [Demo.post "BAD"] None 0 st)))
     = "BAD"
  /\ filename_pattern
       (loader (snd (profile_loop 0 [Demo.post "BAD"; Demo.post "GOOD"]
                                  None 0 st)))
     = "BAD".
Proof. vm_compute. repeat split. Qed.

(** C9: the directory argument has no effect.  [save_dir] changes neither
    function, [--directory] does not change the run, and every download goes
    to the directory named by the shortcode: the requested one in
    [download_post_by_shortcode], the post's own in
    [download_profile_posts]. *)
Theorem C9_directory_argument_ignored :
  forall (W : Type) (E : Env W),
    (forall sc d1 d2 (st : state W),
        download_post_by_shortcode sc d1 st
        = download_post_by_shortcode sc d2 st)
    /\ (forall name d1 d2 n po (st : state W),
           download_profile_posts name d1 n po st
           = download_profile_posts name d2 n po st)
    /\ (forall args d1 d2 (w : W),
           script (with_directory args d1) w
           = script (with_directory args d2) w)
    /\ (forall sc d (st : state W),
           exists evs,
             events (snd (download_post_by_shortcode sc d st))
             = events st ++ evs
             /\ targets (fun _ => sc) evs)
    /\ (forall name d n po (st : state W),
           exists evs,
             events (snd (download_profile_posts name d n po st))
             = events st ++ evs
             /\ targets shortcode evs).
Proof.
  intros W E.
  split; [reflexivity|]. split; [reflexivity|]. split; [reflexivity|].
  split.
  - intros sc d st.
    destruct (ByShortcode.download_post_by_shortcode_spec sc d st)
      as (evs & lines & Hev & _ & _ & _ & Htg & _).
    now exists evs.
  - intros name d n po st.
    destruct (Toplevel.download_profile_posts_events name d n po st)
      as (evs & Hev & Htg & _).
    now exists evs.
Qed.

(** C10: the posts-only flag has no effect.  [download_profile_posts] does
    the same whatever [posts_only] is, and so does the whole run. *)
Theorem C10_posts_only_ignored :
  forall (W : Type) (E : Env W),
    (forall name d n (st : state W),
        download_profile_posts name d n true st
        = download_profile_posts name d n false st)
    /\ (forall args b1 b2 (w : W),
           script (with_posts_only args b1) w
           = script (with_posts_only args b2) w).
Proof. intros W E. split; reflexivity. Qed.

(* ================================================================== *)
(** * Further properties: the resolver as a scan *)
(* ================================================================== *)

Module Scan.
Import StrFacts.
Local Open Scope string_scope.

Lemma span_append p (s : string) : fst (span p s) ++ snd (span p s) = s.
Proof.
  induction s as [|c s IH]; cbn; [reflexivity|].
  destruct (p c); [|reflexivity].
  destruct (span p s) as [r t]. cbn in *. now rewrite IH.
Qed.

Lemma span_forallb p (s : string) : Str.forallb p (fst (span p s)) = true.
Proof.
  induction s as [|c s IH]; cbn; [reflexivity|].
  destruct (p c) eqn:Hc; [|reflexivity].
  destruct (span p s) as [r t]. cbn in *. now rewrite Hc.
Qed.

(** Greedy repetition before a continuation that always succeeds takes the
    longest run. *)
Lemma plus_span {A} p (f : string -> A) : forall s : string,
    Re.plus p s (fun s' => Some (f s'))
    = match fst (span p s) with
      | EmptyString => None
      | _ => Some (f (snd (span p s)))
      end.
Proof.
  induction s as [|c s IH]; cbn; [reflexivity|].
  destruct (p c); [|reflexivity].
  rewrite IH. pose proof (span_append p s) as Happ.
  destruct (span p s) as [r t]. cbn in *.
  destruct r; [now subst | reflexivity].
Qed.

Lemma run_Lits {A} (t : string) : forall (s : string) g
    (k : string -> option string -> option A),
    Re.run (Re.Lits t) s g k
    = match after t s with
      | Some s' => k s' g
      | None => None
      end.
Proof.
  induction t as [|c t IH]; cbn; intros s g k; [reflexivity|].
  destruct s as [|c' s]; [reflexivity|].
  destruct (Ascii.eqb c c'); [apply IH | reflexivity].
Qed.

Lemma after_append_l (a b s : string) :
  after (a ++ b) s
  = match after a s with
    | Some s' => after b s'
    | None => None
    end.
Proof.
  revert s; induction a as [|c a IH]; cbn; intros s; [reflexivity|].
  destruct s as [|c' s]; [reflexivity|].
  destruct (Ascii.eqb c c'); [apply IH | reflexivity].
Qed.

Lemma group_tail (seg t : string) g :
  Re.run (Re.Lits seg) t g
    (fun s' g' =>
       Re.run (Re.Seq (Re.Lit "/") (Re.Group (Re.Plus ident_char))) s' g'
              (fun _ g'' => Some {| Re.group1 := g'' |}))
  = option_map mk (id_after seg t).
Proof.
  rewrite run_Lits. unfold id_after. rewrite after_append_l.
  destruct (after seg t) as [u|]; [|reflexivity].
  cbn [Re.run]. destruct u as [|c u]; [reflexivity|].
  cbn [after]. destruct (Ascii.eqb "/" c); [|reflexivity].
  rewrite plus_span.
  pose proof (span_append ident_char u) as Happ.
  destruct (span ident_char u) as [r rest]. cbn [fst snd] in *.
  destruct r as [|c0 r]; [reflexivity|].
  cbn [option_map]. unfold mk.
  rewrite <- Happ, take_append. reflexivity.
Qed.

Lemma run_core (s : string) g :
  Re.run core s g K = option_map mk (post_id_here s).
Proof.
  unfold core. cbn [Re.run]. rewrite run_Lits. unfold post_id_here.
  destruct (after "instagram.com/" s) as [t|]; [|reflexivity].
  unfold K.
  rewrite !group_tail.
  destruct (id_after "p" t); [reflexivity|].
  destruct (id_after "reel" t); reflexivity.
Qed.

Lemma post_id_here_head (s : string) c (s' : string) :
  s = String c s' -> Ascii.eqb "i" c = false -> post_id_here s = None.
Proof. intros -> H. unfold post_id_here. cbn [after]. now rewrite H. Qed.

Lemma run_www (s : string) g :
  Re.run (Re.Seq (Re.Opt (Re.Lits "www.")) core) s g K
  = option_map mk (post_id_here (drop_www s)).
Proof.
  cbn [Re.run]. rewrite run_Lits. unfold drop_www, drop_prefix.
  fold core.
  change (fun (s' : string) (g' : option string) => Re.run core s' g' K)
    with (fun (s' : string) (g' : option string) => Re.run core s' g' K).
  destruct (after "www." s) as [t|] eqn:Hw.
  - rewrite !run_core.
    destruct (post_id_here t); [reflexivity|].
    apply after_sound in Hw as ->.
    now rewrite (post_id_here_head ("www." ++ t) "w" ("ww." ++ t)).
  - apply run_core.
Qed.

Lemma run_opt_scheme {A} (k : string -> option string -> option A)
      (s : string) g :
  Re.run (Re.Opt scheme) s g k
  = match
      match after "http" s with
      | Some s1 =>
          match
            match after "s" s1 with
            | Some s2 =>
                match after "://" s2 with
                | Some t => k t g
                | None => None
                end
            | None => None
            end
          with
          | Some x => Some x
          | None =>
              match after "://" s1 with
              | Some t => k t g
              | None => None
              end
          end
      | None => None
      end
    with
    | Some x => Some x
    | None => k s g
    end.
Proof.
  unfold scheme. cbn [Re.run]. rewrite run_Lits.
  destruct (after "http" s) as [s1|]; [|reflexivity].
  rewrite run_Lits.
  destruct s1 as [|c s2]; [reflexivity|].
  cbn [after]. destruct (Ascii.eqb "s" c); [|reflexivity].
  now rewrite run_Lits.
Qed.

Lemma after_scheme_eq (s : string) g :
  after_scheme s g = option_map mk (post_id_here (drop_www s)).
Proof. apply run_www. Qed.

Lemma www_head_None (s : string) c (s' : string) :
  s = String c s' -> Ascii.eqb "i" c = false -> Ascii.eqb "w" c = false ->
  post_id_here (drop_www s) = None.
Proof.
  intros -> Hi Hw. unfold drop_www, drop_prefix. cbn [after]. rewrite Hw.
  now apply (post_id_here_head _ c s').
Qed.

Lemma match_here_pattern (s : string) :
  Re.match_here pattern s
  = option_map mk (post_id_here (drop_www (drop_scheme s))).
Proof.
  change (Re.match_here pattern s)
    with (Re.run (Re.Opt scheme) s None after_scheme).
  rewrite run_opt_scheme. unfold drop_scheme, drop_prefix.
  change "https://" with ("http" ++ "s" ++ "://").
  change "http://" with ("http" ++ "://").
  rewrite !after_append_l.
  destruct (after "http" s) as [s1|] eqn:Hh;
    [|now rewrite after_scheme_eq].
  apply after_sound in Hh. cbn [append] in Hh.
  assert (Hs : post_id_here (drop_www s) = None)
    by now rewrite (www_head_None s "h" _ Hh eq_refl eq_refl).
  rewrite after_append_l.
  destruct (after "s" s1) as [s2|] eqn:H2.
  - apply after_sound in H2. cbn [append] in H2. subst s1.
    replace (after "://" (String "s" s2)) with (@None string)
      by reflexivity.
    destruct (after "://" s2) as [t|]; rewrite ?after_scheme_eq.
    + destruct (post_id_here (drop_www t)) as [r|]; [reflexivity|].
      cbn [option_map]. now rewrite Hs.
    + now rewrite Hs.
  - destruct (after "://" s1) as [t|]; rewrite ?after_scheme_eq.
    + destruct (post_id_here (drop_www t)) as [r|]; [reflexivity|].
      cbn [option_map]. now rewrite Hs.
    + now rewrite Hs.
Qed.

Lemma first_post_id_unfold (s : string) :
  first_post_id s
  = match post_id_here s with
    | Some r => Some r
    | None =>
        match s with
        | String _ s' => first_post_id s'
        | EmptyString => None
        end
    end.
Proof. now destruct s. Qed.

Lemma first_post_id_skip c (t : string) :
  Ascii.eqb "i" c = false -> first_post_id (String c t) = first_post_id t.
Proof.
  intros H. rewrite first_post_id_unfold.
  now rewrite (post_id_here_head (String c t) c t eq_refl H).
Qed.

Lemma first_post_id_here (s r : string) :
  post_id_here s = Some r -> first_post_id s = Some r.
Proof. intros H. rewrite first_post_id_unfold. now rewrite H. Qed.

Lemma first_post_id_www (s r : string) :
  post_id_here (drop_www s) = Some r -> first_post_id s = Some r.
Proof.
  unfold drop_www, drop_prefix. destruct (after "www." s) as [t|] eqn:Hw.
  - apply after_sound in Hw as ->. intros H. cbn [append].
    rewrite !first_post_id_skip by reflexivity.
    now apply first_post_id_here.
  - apply first_post_id_here.
Qed.

Lemma first_post_id_prefixed (s r : string) :
  post_id_here (drop_www (drop_scheme s)) = Some r ->
  first_post_id s = Some r.
Proof.
  unfold drop_scheme, drop_prefix.
  destruct (after "https://" s) as [t|] eqn:H1.
  - apply after_sound in H1 as ->. intros H. cbn [append].
    rewrite !first_post_id_skip by reflexivity.
    now apply first_post_id_www.
  - destruct (after "http://" s) as [t|] eqn:H2.
    + apply after_sound in H2 as ->. intros H. cbn [append].
      rewrite !first_post_id_skip by reflexivity.
      now apply first_post_id_www.
    + apply first_post_id_www.
Qed.

Lemma post_id_here_unprefixed (s : string) :
  post_id_here (drop_www (drop_scheme s)) = None -> post_id_here s = None.
Proof.
  unfold drop_scheme, drop_prefix.
  destruct (after "https://" s) as [t|] eqn:H1.
  { apply after_sound in H1 as ->. intros _.
    now apply (post_id_here_head _ "h" ("ttps://" ++ t)). }
  destruct (after "http://" s) as [t|] eqn:H2.
  { apply after_sound in H2 as ->. intros _.
    now apply (post_id_here_head _ "h" ("ttp://" ++ t)). }
  unfold drop_www, drop_prefix.
  destruct (after "www." s) as [t|] eqn:H3; [|easy].
  apply after_sound in H3 as ->. intros _.
  now apply (post_id_here_head _ "w" ("ww." ++ t)).
Qed.

Lemma search_pattern_eq : forall s : string,
    Re.search pattern s = option_map mk (first_post_id s).
Proof.
  induction s as [|c s IH]; cbn [Re.search]; rewrite match_here_pattern.
  - destruct (post_id_here (drop_www (drop_scheme ""))) as [r|] eqn:H.
    + now rewrite (first_post_id_prefixed "" r H).
    + reflexivity.
  - destruct (post_id_here (drop_www (drop_scheme (String c s))))
      as [r|] eqn:H.
    + now rewrite (first_post_id_prefixed _ r H).
    + cbn [option_map]. rewrite IH, (first_post_id_unfold (String c s)).
      now rewrite (post_id_here_unprefixed _ H).
Qed.

Lemma extract_first_post_id (url : string) :
  extract_shortcode_from_url url = first_post_id (Str.strip url).
Proof.
  unfold extract_shortcode_from_url. rewrite search_pattern_eq.
  now destruct (first_post_id (Str.strip url)).
Qed.

End Scan.

(* ================================================================== *)
(** * Further properties: stripping, files and the modes of [main] *)
(* ================================================================== *)

Module StripFacts.
Import StrFacts.
Local Open Scope string_scope.

Lemma ident_not_space c : ident_char c = true -> Str.isspace c = false.
Proof.
  destruct c as [[] [] [] [] [] [] [] []]; vm_compute; congruence.
Qed.

Lemma rstrip_cons_nonspace c (s : string) :
  Str.isspace c = false -> Str.rstrip (String c s) = String c (Str.rstrip s).
Proof. intros H. cbn [Str.rstrip]. rewrite H. now destruct (Str.rstrip s). Qed.

Lemma rstrip_nonspace_app (a rest : string) :
  Str.forallb (fun c => negb (Str.isspace c)) a = true ->
  Str.rstrip (a ++ rest) = a ++ Str.rstrip rest.
Proof.
  induction a as [|c a IH]; cbn [append Str.forallb]; intros H;
    [reflexivity|].
  apply andb_true_iff in H as [Hc Ha]. apply negb_true_iff in Hc.
  now rewrite rstrip_cons_nonspace, IH.
Qed.

Lemma strip_nonspace_app (a rest : string) :
  a <> "" ->
  Str.forallb (fun c => negb (Str.isspace c)) a = true ->
  Str.strip (a ++ rest) = a ++ Str.rstrip rest.
Proof.
  intros Hne Ha. unfold Str.strip.
  destruct a as [|c a]; [easy|].
  assert (Hc : Str.isspace c = false).
  { cbn in Ha. apply andb_true_iff in Ha as [Hc _].
    now apply negb_true_iff in Hc. }
  cbn [append Str.lstrip]. rewrite Hc.
  now apply (rstrip_nonspace_app (String c a)).
Qed.

Lemma forallb_impl (p q : ascii -> bool) (s : string) :
  (forall c, p c = true -> q c = true) ->
  Str.forallb p s = true -> Str.forallb q s = true.
Proof.
  intros Hpq. induction s as [|c s IH]; cbn; [easy|].
  intros H. apply andb_true_iff in H as [Hc Hs].
  now rewrite (Hpq _ Hc), IH.
Qed.

Lemma rstrip_spaces (pad : string) :
  Str.forallb Str.isspace pad = true -> Str.rstrip pad = "".
Proof.
  induction pad as [|c pad IH]; cbn; [easy|].
  intros H. apply andb_true_iff in H as [Hc Hp].
  now rewrite (IH Hp), Hc.
Qed.

Lemma lstrip_spaces (pad s : string) :
  Str.forallb Str.isspace pad = true -> Str.lstrip (pad ++ s) = Str.lstrip s.
Proof.
  induction pad as [|c pad IH]; cbn; [easy|].
  intros H. apply andb_true_iff in H as [Hc Hp]. rewrite Hc. auto.
Qed.

Lemma rstrip_app_spaces (s pad : string) :
  Str.forallb Str.isspace pad = true -> Str.rstrip (s ++ pad) = Str.rstrip s.
Proof.
  intros Hp. induction s as [|c s IH]; cbn [append Str.rstrip].
  - now apply rstrip_spaces.
  - now rewrite IH.
Qed.

Lemma strip_pad (pad1 s pad2 : string) :
  Str.forallb Str.isspace pad1 = true ->
  Str.forallb Str.isspace pad2 = true ->
  Str.strip (pad1 ++ s ++ pad2) = Str.strip s.
Proof.
  intros H1 H2. unfold Str.strip. rewrite (lstrip_spaces _ _ H1).
  induction s as [|c s IH]; cbn [append Str.lstrip].
  - rewrite rstrip_spaces; [reflexivity|].
    clear H1. induction pad2 as [|c p IH]; cbn; [easy|].
    cbn in H2. apply andb_true_iff in H2 as [Hc Hp]. rewrite Hc. auto.
  - destruct (Str.isspace c); [exact IH|].
    now apply (rstrip_app_spaces (String c s)).
Qed.

Lemma rstrip_head (s : string) :
  Str.rstrip s = ""
  \/ exists c s' t, s = String c s' /\ Str.rstrip s = String c t.
Proof.
  destruct s as [|c s]; [now left|]. cbn [Str.rstrip].
  destruct (Str.rstrip s) as [|c' t].
  - destruct (Str.isspace c); [now left|].
    right. now exists c, s, "".
  - right. now exists c, s, (String c' t).
Qed.

Lemma lstrip_rstrip (s : string) :
  Str.lstrip (Str.rstrip (Str.lstrip s)) = Str.rstrip (Str.lstrip s).
Proof.
  induction s as [|c s IH]; [reflexivity|]. cbn [Str.lstrip].
  destruct (Str.isspace c) eqn:Hc; [exact IH|].
  rewrite (rstrip_cons_nonspace _ _ Hc). cbn [Str.lstrip]. now rewrite Hc.
Qed.

Lemma rstrip_rstrip (s : string) : Str.rstrip (Str.rstrip s) = Str.rstrip s.
Proof.
  induction s as [|c s IH]; [reflexivity|]. cbn [Str.rstrip].
  destruct (Str.rstrip s) as [|c' t] eqn:Hr.
  - destruct (Str.isspace c) eqn:Hc; [reflexivity|].
    cbn. now rewrite Hc.
  - cbn [Str.rstrip]. cbn [Str.rstrip] in IH.
    destruct (Str.rstrip t) as [|c'' t'].
    + destruct (Str.isspace c'); [discriminate|]. now rewrite IH.
    + now rewrite IH.
Qed.

Lemma strip_strip (s : string) : Str.strip (Str.strip s) = Str.strip s.
Proof.
  unfold Str.strip. now rewrite lstrip_rstrip, rstrip_rstrip.
Qed.

Lemma strip_spaces (s : string) :
  Str.forallb Str.isspace s = true -> Str.strip s = "".
Proof.
  intros H. unfold Str.strip.
  replace s with (s ++ "") by apply append_nil_r.
  now rewrite (lstrip_spaces s "" H).
Qed.

Lemma strip_empty_spaces (s : string) :
  Str.strip s = "" -> Str.forallb Str.isspace s = true.
Proof.
  unfold Str.strip. induction s as [|c s IH]; [easy|]. cbn [Str.lstrip].
  destruct (Str.isspace c) eqn:Hc.
  - intros H. cbn. now rewrite Hc, IH.
  - rewrite (rstrip_cons_nonspace _ _ Hc). discriminate.
Qed.

End StripFacts.

Module ScanFacts.
Import StrFacts StripFacts.
Local Open Scope string_scope.

Lemma span_ident_app (sc rest : string) :
  Str.forallb ident_char sc = true ->
  match rest with
  | String d _ => ident_char d
  | EmptyString => false
  end = false ->
  span ident_char (sc ++ rest) = (sc, rest).
Proof.
  intros Hsc Hrest. induction sc as [|c sc IH]; cbn [append].
  - destruct rest as [|d r]; [reflexivity|]. cbn. now rewrite Hrest.
  - cbn in Hsc. apply andb_true_iff in Hsc as [Hc Hsc].
    cbn [span]. now rewrite Hc, (IH Hsc).
Qed.

Lemma id_after_intro (seg sc rest : string) :
  sc <> "" ->
  Str.forallb ident_char sc = true ->
  match rest with
  | String d _ => ident_char d
  | EmptyString => false
  end = false ->
  id_after seg (seg ++ "/" ++ sc ++ rest) = Some sc.
Proof.
  intros Hne Hsc Hrest. unfold id_after.
  rewrite <- append_assoc, after_append, (span_ident_app _ _ Hsc Hrest).
  now destruct sc.
Qed.

Lemma post_id_here_intro (seg sc rest : string) :
  seg = "p" \/ seg = "reel" \/ seg = "tv" ->
  sc <> "" ->
  Str.forallb ident_char sc = true ->
  match rest with
  | String d _ => ident_char d
  | EmptyString => false
  end = false ->
  post_id_here ("instagram.com/" ++ seg ++ "/" ++ sc ++ rest) = Some sc.
Proof.
  intros Hseg Hne Hsc Hrest. unfold post_id_here. rewrite after_append.
  destruct Hseg as [-> | [-> | ->]].
  - now rewrite id_after_intro.
  - replace (id_after "p" ("reel" ++ "/" ++ sc ++ rest)) with (@None string)
      by reflexivity.
    now rewrite id_after_intro.
  - replace (id_after "p" ("tv" ++ "/" ++ sc ++ rest)) with (@None string)
      by reflexivity.
    replace (id_after "reel" ("tv" ++ "/" ++ sc ++ rest))
      with (@None string) by reflexivity.
    now rewrite id_after_intro.
Qed.

Lemma first_post_id_prefix (sch www x r : string) :
  sch = "" \/ sch = "http://" \/ sch = "https://" ->
  www = "" \/ www = "www." ->
  post_id_here x = Some r ->
  first_post_id (sch ++ www ++ x) = Some r.
Proof.
  intros Hs Hw Hx.
  destruct Hs as [-> | [-> | ->]]; destruct Hw as [-> | ->];
    cbn [append];
    rewrite ?Scan.first_post_id_skip by reflexivity;
    now apply Scan.first_post_id_here.
Qed.

(** What the resolver returns is a non-empty run of identifier characters. *)
Lemma resolved_is_identifier (url sc : string) :
  extract_shortcode_from_url url = Some sc ->
  sc <> "" /\ Str.forallb ident_char sc = true.
Proof.
  intros H. unfold extract_shortcode_from_url in H.
  destruct (Re.search pattern (Str.strip url)) as [m|] eqn:Hs;
    [|discriminate].
  apply Resolver.search_pattern_sound in Hs as (_ & c & run & Hg & Hall).
  rewrite Hg in H. inversion H; subst sc. split; [discriminate | exact Hall].
Qed.

End ScanFacts.

Module More.
Local Open Scope Z_scope.

Section Fn.
Context {W : Type} {E : Env W}.

Lemma profile_loop_trace : forall posts count fault d (st : state W),
    exists evs,
      events (snd (profile_loop count posts fault d st)) = events st ++ evs
      /\ named_by_target evs
      /\ (downloads_returned evs = true ->
          loader (snd (profile_loop count posts fault d st)) = loader st).
Proof.
  induction posts as [|post rest IH]; intros count fault d st.
  - rewrite ProfileLoop.profile_loop_nil. exists [].
    rewrite app_nil_r. destruct fault; repeat split; constructor.
  - rewrite ProfileLoop.profile_loop_cons.
    destruct ((count >? 0) && (d >=? count)).
    + exists [Yielded post]. repeat split; repeat constructor.
    + destruct (download_post (world st)
                  (with_filename_pattern (loader st) (shortcode post))
                  post (shortcode post)) as [w [e|]].
      * destruct (is_Exception e).
        -- destruct (IH count fault d (item_done w post (Some e) st))
             as (evs & Hev & Hn & _).
           exists (Yielded post
                     :: Downloaded post (shortcode post) (shortcode post)
                                   (Some e) :: evs).
           rewrite Hev. cbn [item_done events]. rewrite <- app_assoc.
           repeat split; [repeat constructor; auto | discriminate].
        -- exists [Yielded post;
                   Downloaded post (shortcode post) (shortcode post)
                              (Some e)].
           repeat split; [repeat constructor | discriminate].
      * destruct (IH count fault (d + 1) (item_done w post None st))
          as (evs & Hev & Hn & Hl).
        exists (Yielded post
                  :: Downloaded post (shortcode post) (shortcode post) None
                  :: evs).
        rewrite Hev. cbn [item_done events]. rewrite <- app_assoc.
        repeat split; [repeat constructor; auto|].
        intros Hr. now rewrite (Hl Hr).
Qed.

(** [download_profile_posts] once the profile is found, as a whole. *)
Lemma download_profile_posts_found_eq name dir count po (st : state W)
      w profile :
  Profile_from_username (world st) name = (w, inr profile) ->
  download_profile_posts name dir count po st
  = match profile_loop count (listing profile) (listing_fault profile) 0
            {| world := w; loader := loader st;
               stdout := stdout st
                           ++ [("Downloading posts from @" ++ name
                                  ++ "...")%string];
               stderr := stderr st; events := events st |} with
    | (Normal d, st2) =>
        print ("Successfully downloaded " ++ Str.of_Z d ++ " posts from @"
                 ++ name) st2
    | (Raised e, st2) =>
        if is_Exception e then
          (Exited 1,
           {| world := world st2; loader := loader st2;
              stdout := stdout st2
                          ++ [match e with
                              | ProfileNotExistsException _ =>
                                  ("Error: Profile @" ++ name
                                     ++ " does not exist or is private")%string
                              | _ => ("Error: " ++ exn_str e)%string
                              end];
              stderr := stderr st2; events := events st2 |})
        else (Raised e, st2)
    | (Exited c, st2) => (Exited c, st2)
    end.
Proof.
  intros Hfound.
  unfold download_profile_posts.
  unfold try_except at 1. unfold bind at 1. unfold from_username at 1.
  rewrite Hfound.
  unfold bind at 1. unfold print at 1. unfold bind at 1.
  cbn [world loader stdout stderr events].
  match goal with
  | |- context [profile_loop ?c ?l ?f ?d ?s] =>
      destruct (profile_loop c l f d s) as [[d'|e|c'] st2]
  end; [reflexivity | destruct e; reflexivity | reflexivity].
Qed.

Lemma download_profile_posts_missing name dir count po (st : state W) w e :
  Profile_from_username (world st) name = (w, inl e) ->
  download_profile_posts name dir count po st
  = if is_Exception e then
      (Exited 1,
       {| world := w; loader := loader st;
          stdout := stdout st
                      ++ [match e with
                          | ProfileNotExistsException _ =>
                              ("Error: Profile @" ++ name
                                 ++ " does not exist or is private")%string
                          | _ => ("Error: " ++ exn_str e)%string
                          end];
          stderr := stderr st; events := events st |})
    else
      (Raised e,
       {| world := w; loader := loader st; stdout := stdout st;
          stderr := stderr st; events := events st |}).
Proof.
  intros Hmissing.
  unfold download_profile_posts.
  unfold try_except at 1. unfold bind at 1. unfold from_username at 1.
  rewrite Hmissing. destruct e; reflexivity.
Qed.

Lemma bind_normal {A B} (m : M A) (f : A -> M B) (st st1 : state W) a :
  m st = (Normal a, st1) -> bind m f st = f a st1.
Proof. intros H. unfold bind. now rewrite H. Qed.

Lemma not_Exception e : is_Exception e = false -> e = KeyboardInterrupt.
Proof. destruct e; easy. Qed.

(** The modes of [main] after the session is set up. *)
Lemma main_url_mode args (st st1 : state W) sc :
  given (shortcodes_file args) = false ->
  given (post_url args) = true ->
  extract_shortcode_from_url (value (post_url args)) = Some sc ->
  create_instance (username args) st = (Normal tt, st1) ->
  main args st
  = bind (download_post_by_shortcode sc (directory args))
         (fun _ => ret tt) st1.
Proof.
  intros Hfile Hurl Hsome Hsession. unfold main.
  rewrite Hfile, Hurl, Hsome, orb_true_r. cbn [negb].
  rewrite (bind_normal _ _ st st tt eq_refl).
  rewrite (bind_normal _ _ st st1 tt Hsession).
  destruct (ScanFacts.resolved_is_identifier _ _ Hsome) as (Hne & _).
  destruct sc; [easy | reflexivity].
Qed.

Lemma main_shortcode_mode args (st st1 : state W) :
  given (shortcodes_file args) = false ->
  given (post_url args) = false ->
  given (arg_shortcode args) = true ->
  create_instance (username args) st = (Normal tt, st1) ->
  main args st
  = bind (download_post_by_shortcode (value (arg_shortcode args))
                                     (directory args))
         (fun _ => ret tt) st1.
Proof.
  intros Hfile Hurl Hsc Hsession. unfold main.
  rewrite Hfile, Hurl, Hsc, orb_true_r. cbn [negb].
  rewrite (bind_normal _ _ st st tt eq_refl).
  now rewrite (bind_normal _ _ st st1 tt Hsession).
Qed.

Lemma main_profile_mode args (st st1 : state W) :
  given (shortcodes_file args) = false ->
  given (post_url args) = false ->
  given (arg_shortcode args) = false ->
  given (target args) = true ->
  create_instance (username args) st = (Normal tt, st1) ->
  main args st
  = download_profile_posts (value (target args)) (directory args)
                           (count args) (posts_only args) st1.
Proof.
  intros Hfile Hurl Hsc Ht Hsession. unfold main.
  rewrite Hfile, Hurl, Hsc, Ht. cbn [negb orb].
  rewrite (bind_normal _ _ st st tt eq_refl).
  now rewrite (bind_normal _ _ st st1 tt Hsession).
Qed.

Lemma session_events user (w : W) st1 :
  create_instance user (initial w) = (Normal tt, st1) -> events st1 = [].
Proof.
  intros H.
  pose proof (Toplevel.create_instance_events user (initial w)) as Hev.
  now rewrite H in Hev.
Qed.

(** One call of [download_post_by_shortcode] under [main]. *)
Lemma single_post_status (sc dir : string) (st1 : state W) :
  exists evs,
    events (snd (bind (download_post_by_shortcode sc dir)
                      (fun _ => ret tt) st1)) = events st1 ++ evs
    /\ fetches evs = [sc]
    /\ (fst (bind (download_post_by_shortcode sc dir)
                  (fun _ => ret tt) st1) = Normal tt
        \/ fst (bind (download_post_by_shortcode sc dir)
                     (fun _ => ret tt) st1) = Raised KeyboardInterrupt).
Proof.
  unfold bind, ret.
  destruct (ByShortcode.download_post_by_shortcode_spec sc dir st1)
    as (evs & lines & Hev & _ & Hf & _ & _ & _ & Hend).
  destruct (download_post_by_shortcode sc dir st1) as [o st2].
  cbn [fst snd] in *. exists evs.
  destruct Hend as [[b ->] | (e & -> & He)]; cbn [fst snd]; auto.
  apply not_Exception in He as ->. auto.
Qed.


(** What [download_profile_posts] adds to the trace and does to the
    loader. *)
Lemma download_profile_posts_trace name dir count po (st : state W) :
  exists evs,
    events (snd (download_profile_posts name dir count po st))
    = events st ++ evs
    /\ named_by_target evs
    /\ (downloads_returned evs = true ->
        loader (snd (download_profile_posts name dir count po st))
        = loader st).
Proof.
  destruct (Profile_from_username (world st) name) as [w [e|profile]] eqn:Hp.
  - rewrite (download_profile_posts_missing name dir count po st w e Hp).
    exists []. rewrite app_nil_r.
    destruct (is_Exception e); repeat split; constructor.
  - rewrite (download_profile_posts_found_eq name dir count po st w profile Hp).
    match goal with
    | |- context [profile_loop ?c ?l ?f ?d ?s] =>
        destruct (profile_loop_trace l c f d s) as (evs & Hev & Hn & Hl);
        destruct (profile_loop c l f d s) as [[d'|e|c'] st2]
    end; cbn [fst snd events loader] in *; exists evs.
    + unfold print. cbn. auto.
    + destruct (is_Exception e); cbn; auto.
    + cbn. auto.
Qed.

Lemma create_instance_login_fails user (st : state W) w1 pw w2 e :
  given user = true ->
  getpass (world st) ("Enter password for " ++ value user ++ ": ")%string
  = (w1, pw) ->
  login w1 (value user) pw = (w2, Some e) ->
  create_instance user st
  = match e with
    | BadCredentialsException _ =>
        (Exited 1,
         {| world := w2; loader := new_loader;
            stdout := stdout st ++ ["Error: Invalid credentials"];
            stderr := stderr st; events := events st |})
    | ConnectionException _ =>
        (Exited 1,
         {| world := w2; loader := new_loader;
            stdout := stdout st ++ ["Error: Connection error during login"];
            stderr := stderr st; events := events st |})
    | _ =>
        (Raised e,
         {| world := w2; loader := new_loader; stdout := stdout st;
            stderr := stderr st; events := events st |})
    end.
Proof.
  intros Hu Hpw Hlogin. unfold create_instance. unfold bind at 1.
  rewrite Hu. unfold try_except, bind, ask_password, loader_login.
  cbn [world loader stdout stderr events]. rewrite Hpw.
  cbn [world loader stdout stderr events]. rewrite Hlogin.
  destruct e; reflexivity.
Qed.

Lemma main_session_fails args (st st1 : state W) (o : outcome unit) :
  (given (shortcodes_file args) || given (target args)
   || given (arg_shortcode args) || given (post_url args)) = true ->
  create_instance (username args) st = (o, st1) ->
  (forall a, o <> Normal a) ->
  main args st = (o, st1).
Proof.
  intros Hmode Hsession Ho. unfold main.
  destruct (given (shortcodes_file args)) eqn:Hfile.
  - unfold bind. rewrite Hsession.
    destruct o as [[]|e|c]; [now destruct (Ho tt) | reflexivity | reflexivity].
  - cbn [orb] in Hmode. rewrite Hmode. cbn [negb].
    rewrite (bind_normal _ _ st st tt eq_refl).
    unfold bind. rewrite Hsession.
    destruct o as [[]|e|c]; [now destruct (Ho tt) | reflexivity | reflexivity].
Qed.

End Fn.
End More.

Module FileFacts.
Import StripFacts.

Lemma shortcodes_of_lines_app (a b : list string) :
  shortcodes_of_lines (a ++ b)
  = shortcodes_of_lines a ++ shortcodes_of_lines b.
Proof. unfold shortcodes_of_lines. now rewrite filter_app, map_app. Qed.

Lemma shortcodes_of_blank (line : string) :
  Str.forallb Str.isspace line = true -> shortcodes_of_lines [line] = [].
Proof.
  intros H. unfold shortcodes_of_lines. cbn.
  now rewrite (strip_spaces line H).
Qed.

Lemma shortcodes_of_line (line : string) :
  Str.forallb Str.isspace line = false ->
  shortcodes_of_lines [line] = [Str.strip line].
Proof.
  intros H. unfold shortcodes_of_lines. cbn [filter].
  destruct (Str.truthy (Str.strip line)) eqn:Ht; [reflexivity|].
  assert (Hs : Str.strip line = EmptyString)
    by (now destruct (Str.strip line)).
  apply strip_empty_spaces in Hs. congruence.
Qed.

End FileFacts.

(* ================================================================== *)
(** * Further properties *)
(* ================================================================== *)

Section ResolverProperties.
Local Open Scope string_scope.

(** X1.  What [extract_shortcode_from_url] returns is what a scan from left
    to right of the stripped input returns: at the first position where the
    text [instagram.com/] is followed by [p/], [reel/] or [tv/] and a
    character of the identifier class, the longest run of identifier
    characters that starts there; nothing when there is no such position.
    The optional scheme and [www.] of the pattern never change the result. *)
Theorem X1_resolver_is_a_scan :
  forall url : string,
    extract_shortcode_from_url url = first_post_id (Str.strip url).
Proof. exact Scan.extract_first_post_id. Qed.

(** X2.  A well-formed post URL resolves to its shortcode: with or without
    [http://] or [https://], with or without [www.], for each of the
    segments [p], [reel] and [tv], and whatever follows the shortcode (the
    end of the input, or a text that starts with a character outside the
    identifier class, such as [/], [?] or [#]), the resolver returns the
    shortcode, whole. *)
Theorem X2_well_formed_url_resolves :
  forall sch www seg sc rest : string,
    sch = "" \/ sch = "http://" \/ sch = "https://" ->
    www = "" \/ www = "www." ->
    seg = "p" \/ seg = "reel" \/ seg = "tv" ->
    sc <> "" ->
    Str.forallb ident_char sc = true ->
    match rest with
    | String d _ => ident_char d
    | EmptyString => false
    end = false ->
    extract_shortcode_from_url
      (sch ++ www ++ "instagram.com/" ++ seg ++ "/" ++ sc ++ rest)
    = Some sc.
Proof.
  intros sch www seg sc rest Hs Hw Hseg Hne Hsc Hrest.
  rewrite Scan.extract_first_post_id.
  replace (sch ++ www ++ "instagram.com/" ++ seg ++ "/" ++ sc ++ rest)
    with ((sch ++ www ++ "instagram.com/" ++ seg ++ "/" ++ sc) ++ rest)
    by (now rewrite !StrFacts.append_assoc).
  rewrite StripFacts.strip_nonspace_app.
  - rewrite !StrFacts.append_assoc.
    apply ScanFacts.first_post_id_prefix; auto.
    apply ScanFacts.post_id_here_intro; auto.
    destruct (StripFacts.rstrip_head rest) as [-> | (c & s' & t & -> & ->)];
      [reflexivity | exact Hrest].
  - destruct Hs as [-> | [-> | ->]]; destruct Hw as [-> | ->]; discriminate.
  - rewrite !StrFacts.forallb_append.
    assert (Hsc' : Str.forallb (fun c => negb (Str.isspace c)) sc = true).
    { apply (StripFacts.forallb_impl ident_char); [|exact Hsc].
      intros c Hc. now rewrite (StripFacts.ident_not_space c Hc). }
    rewrite Hsc'.
    destruct Hs as [-> | [-> | ->]]; destruct Hw as [-> | ->];
      destruct Hseg as [-> | [-> | ->]]; reflexivity.
Qed.

(** A URL with a scheme, [www.] and a query. *)
Lemma X2_witness :
  extract_shortcode_from_url "https://www.instagram.com/p/ABC123/?x=1"
  = Some "ABC123".
Proof.
  apply (X2_well_formed_url_resolves "https://" "www." "p" "ABC123" "/?x=1");
    try reflexivity; auto. discriminate.
Defined.

(** X3.  Whatever the resolver returns is a non-empty string of identifier
    characters: it holds no [/] and no [.], and stripping leaves it as it
    is.  So the test [if shortcode:] of [main] never fails on a resolved
    shortcode. *)
Theorem X3_resolved_shortcode_is_identifier :
  forall url sc : string,
    extract_shortcode_from_url url = Some sc ->
    sc <> ""
    /\ Str.forallb ident_char sc = true
    /\ Str.mem "/" sc = false
    /\ Str.mem "." sc = false
    /\ Str.strip sc = sc.
Proof.
  intros url sc H. unfold extract_shortcode_from_url in H.
  destruct (Re.search pattern (Str.strip url)) as [m|] eqn:Hs;
    [|discriminate].
  apply Resolver.search_pattern_sound in Hs as (_ & c & run & Hg & Hall).
  rewrite Hg in H. inversion H; subst sc. clear H.
  repeat split.
  - discriminate.
  - exact Hall.
  - now apply (StrFacts.forallb_mem ident_char).
  - now apply (StrFacts.forallb_mem ident_char).
  - replace (String c run) with (String c run ++ "") at 1
      by apply StrFacts.append_nil_r.
    rewrite StripFacts.strip_nonspace_app; [apply StrFacts.append_nil_r | discriminate |].
    apply (StripFacts.forallb_impl ident_char); [|exact Hall].
    intros d Hd. now rewrite (StripFacts.ident_not_space d Hd).
Qed.

(** The shortcode of a URL with a query. *)
Lemma X3_witness :
  "ABC123" <> ""
  /\ Str.forallb ident_char "ABC123" = true
  /\ Str.mem "/" "ABC123" = false
  /\ Str.mem "." "ABC123" = false
  /\ Str.strip "ABC123" = "ABC123".
Proof.
  apply (X3_resolved_shortcode_is_identifier
           "https://www.instagram.com/p/ABC123/?x=1" "ABC123").
  reflexivity.
Defined.

(** X4.  White space around the URL is ignored: the resolver returns the
    same on an input and on that input between two runs of white space. *)
Theorem X4_surrounding_whitespace_ignored :
  forall pad1 url pad2 : string,
    Str.forallb Str.isspace pad1 = true ->
    Str.forallb Str.isspace pad2 = true ->
    extract_shortcode_from_url (pad1 ++ url ++ pad2)
    = extract_shortcode_from_url url.
Proof.
  intros pad1 url pad2 H1 H2. unfold extract_shortcode_from_url.
  now rewrite (StripFacts.strip_pad pad1 url pad2 H1 H2).
Qed.

(** Two spaces before and a line end after. *)
Lemma X4_witness :
  extract_shortcode_from_url
    ("  " ++ "instagram.com/p/XyZ_123/" ++ Str.newline)
  = extract_shortcode_from_url "instagram.com/p/XyZ_123/".
Proof.
  apply (X4_surrounding_whitespace_ignored
           "  " "instagram.com/p/XyZ_123/" Str.newline); reflexivity.
Defined.

End ResolverProperties.

(** X5.  With a count of zero or less there is no cap: the profile loop
    attempts every post of the listing, in order, whatever fails, unless a
    download is interrupted (raises something that is not an [Exception]),
    in which case the interrupted download is the last event. *)
Theorem X5_no_cap_attempts_every_post :
  forall (W : Type) (E : Env W) count posts fault (st : state W),
    (count <= 0)%Z ->
    exists evs,
      events (snd (profile_loop count posts fault 0 st)) = events st ++ evs
      /\ (attempts evs = posts
          \/ exists e p target pat before,
              fst (profile_loop count posts fault 0 st) = Raised e
              /\ is_Exception e = false
              /\ evs = before ++ [Downloaded p target pat (Some e)]).
Proof.
  intros W E count posts fault st Hc.
  destruct (ProfileLoop.profile_loop_spec posts count fault 0 st)
    as (evs & lines & Hev & _ & Hend & _).
  exists evs. split; [exact Hev|].
  destruct (fst (profile_loop count posts fault 0 st)) as [d|e|c].
  - apply ProfileLoop.loop_end_normal in Hend
      as [_ [[Ha _]|(Hpos & _)]]; [now left | lia].
  - apply ProfileLoop.loop_end_raised in Hend
      as [(_ & Ha & _)|(He & _ & p & t & pt & before & Hevs)];
      [now left|].
    right. now exists e, p, t, pt, before.
  - now apply ProfileLoop.loop_end_not_exited in Hend.
Qed.

(** A negative count over the listing of [alice]. *)
Lemma X5_witness :
  exists evs,
    events (snd (profile_loop (-3) (Demo.alice Demo.w0) None 0
                              (initial Demo.w0))) = [] ++ evs
    /\ (attempts evs = Demo.alice Demo.w0
        \/ exists e p target pat before,
            fst (profile_loop (-3) (Demo.alice Demo.w0) None 0
                              (initial Demo.w0)) = Raised e
            /\ is_Exception e = false
            /\ evs = before ++ [Downloaded p target pat (Some e)]).
Proof.
  apply (@X5_no_cap_attempts_every_post Demo.world Demo.env (-3)%Z
           (Demo.alice Demo.w0) None (initial Demo.w0)).
  discriminate.
Defined.

(** X6.  A profile lookup that fails is fatal: in profile mode, when
    [Profile.from_username] raises an [Exception], the script prints one
    line ([Error: Profile @<name> does not exist or is private] for
    [ProfileNotExistsException], [Error: <message>] for any other), attempts
    nothing and ends with status 1. *)
Theorem X6_profile_lookup_failure_is_fatal :
  forall (W : Type) (E : Env W) args (w : W) (st1 : state W) w' e,
    given (shortcodes_file args) = false ->
    given (post_url args) = false ->
    given (arg_shortcode args) = false ->
    given (target args) = true ->
    create_instance (username args) (initial w) = (Normal tt, st1) ->
    Profile_from_username (world st1) (value (target args)) = (w', inl e) ->
    is_Exception e = true ->
    script args w
    = (1%Z,
       {| world := w'; loader := loader st1;
          stdout := stdout st1
                      ++ [match e with
                          | ProfileNotExistsException _ =>
                              ("Error: Profile @" ++ value (target args)
                                 ++ " does not exist or is private")%string
                          | _ => ("Error: " ++ exn_str e)%string
                          end];
          stderr := stderr st1; events := [] |}).
Proof.
  intros W E args w st1 w' e Hfile Hurl Hsc Ht Hsession Hp He.
  unfold script.
  rewrite (More.main_profile_mode args (initial w) st1 Hfile Hurl Hsc Ht
             Hsession).
  rewrite (More.download_profile_posts_missing _ _ _ _ st1 w' e Hp), He.
  now rewrite (More.session_events _ w st1 Hsession).
Qed.

(** A profile that does not exist. *)
Lemma X6_witness :
  script {| username := None; target := Some "bob"; count := 0;
            directory := "downloads"; posts_only := false;
            arg_shortcode := None; post_url := None;
            shortcodes_file := None |} Demo.w0
  = (1%Z,
     {| world := Demo.w0; loader := new_loader;
        stdout := ["Error: Profile @bob does not exist or is private"];
        stderr := []; events := [] |}).
Proof.
  apply (@X6_profile_lookup_failure_is_fatal Demo.world Demo.env
           {| username := None; target := Some "bob"; count := 0;
              directory := "downloads"; posts_only := false;
              arg_shortcode := None; post_url := None;
              shortcodes_file := None |}
           Demo.w0 (initial Demo.w0) Demo.w0
           (ProfileNotExistsException "no such profile"));
    reflexivity.
Defined.


Section FlakyRuns.
#[local] Existing Instance Flaky.env.


End FlakyRuns.

(** X8.  The number reported is the number downloaded: when
    [download_profile_posts] returns, the last line it printed is
    [Successfully downloaded <n> posts from @<name>] where [n] is the number
    of downloads that returned, which lies between 0 and the number of posts
    attempted. *)
Theorem X8_reported_count_is_number_downloaded :
  forall (W : Type) (E : Env W) name dir count po (st : state W),
    fst (download_profile_posts name dir count po st) = Normal tt ->
    exists evs lines,
      events (snd (download_profile_posts name dir count po st))
      = events st ++ evs
      /\ stdout (snd (download_profile_posts name dir count po st))
         = stdout st ++ lines
              ++ [("Successfully downloaded " ++ Str.of_Z (successes evs)
                     ++ " posts from @" ++ name)%string]
      /\ (0 <= successes evs <= Z.of_nat (List.length (attempts evs)))%Z.
Proof.
  intros W E name dir count po st.
  destruct (Profile_from_username (world st) name) as [w [e|profile]] eqn:Hp.
  - rewrite (More.download_profile_posts_missing name dir count po st w e Hp).
    destruct (is_Exception e); discriminate.
  - rewrite (More.download_profile_posts_found_eq name dir count po st w
               profile Hp).
    match goal with
    | |- context [profile_loop ?c ?l ?f ?d ?s] =>
        destruct (ProfileLoop.profile_loop_spec l c f d s)
        as (evs & lines & Hev & Hout & Hend & _);
        destruct (profile_loop c l f d s) as [[d'|e'|c'] st2]
    end; cbn [fst snd events stdout] in Hev, Hout, Hend.
    + intros _. apply ProfileLoop.loop_end_normal in Hend as [-> _].
      exists evs,
        (("Downloading posts from @" ++ name ++ "...")%string :: lines).
      unfold print. cbn [fst snd events stdout].
      rewrite Hev, Hout, <- !app_assoc. cbn [Z.add].
      repeat split; apply TraceFacts.successes_le_attempts.
    + destruct (is_Exception e'); discriminate.
    + discriminate.
Qed.

(** The listing of [alice], without a cap. *)
Lemma X8_witness :
  exists evs lines,
    events (snd (download_profile_posts "alice" "downloads" 0 false
                                        (initial Demo.w0))) = [] ++ evs
    /\ stdout (snd (download_profile_posts "alice" "downloads" 0 false
                                           (initial Demo.w0)))
       = [] ++ lines
            ++ [("Successfully downloaded " ++ Str.of_Z (successes evs)
                   ++ " posts from @" ++ "alice")%string]
    /\ (0 <= successes evs <= Z.of_nat (List.length (attempts evs)))%Z.
Proof.
  apply (@X8_reported_count_is_number_downloaded Demo.world Demo.env
           "alice" "downloads" 0%Z false (initial Demo.w0)).
  reflexivity.
Defined.

(** X9.  Every download is named by the shortcode: each call of
    [loader.download_post], in the profile loop and in
    [download_post_by_shortcode], has the shortcode of its post as target
    and runs with the loader's file name pattern set to that shortcode. *)
Theorem X9_downloads_named_by_shortcode :
  forall (W : Type) (E : Env W),
    (forall name dir count po (st : state W),
        exists evs,
          events (snd (download_profile_posts name dir count po st))
          = events st ++ evs
          /\ Forall (fun ev =>
                       match ev with
                       | Downloaded p target pat _ =>
                           target = shortcode p /\ pat = shortcode p
                       | _ => True
                       end) evs)
    /\ (forall sc dir (st : state W),
           exists evs,
             events (snd (download_post_by_shortcode sc dir st))
             = events st ++ evs
             /\ Forall (fun ev =>
                          match ev with
                          | Downloaded _ target pat _ =>
                              target = sc /\ pat = sc
                          | _ => True
                          end) evs).
Proof.
  intros W E. split.
  - intros name dir count po st.
    destruct (More.download_profile_posts_trace name dir count po st)
      as (evs & Hev & Hn & _).
    destruct (Toplevel.download_profile_posts_events name dir count po st)
      as (evs' & Hev' & Ht & _).
    rewrite Hev in Hev'. apply app_inv_head in Hev'. subst evs'.
    exists evs. split; [exact Hev|].
    unfold named_by_target, targets in *.
    rewrite Forall_forall in *. intros ev Hin.
    specialize (Hn ev Hin). specialize (Ht ev Hin).
    destruct ev; auto. split; congruence.
  - intros sc dir st. rewrite ByShortcode.download_post_by_shortcode_eq.
    destruct (Post_from_shortcode (world st) sc) as [w1 [e|post]].
    + eexists. cbn [snd fetch_failed events]. split; [reflexivity|].
      repeat constructor.
    + destruct (download_post w1 (with_filename_pattern (loader st) sc)
                              post sc) as [w2 r].
      eexists. cbn [snd post_done events]. split; [reflexivity|].
      repeat constructor.
Qed.

(** X10.  When no download raises, both download functions leave the
    loader as they found it, file name pattern included. *)
Theorem X10_loader_kept_when_downloads_return :
  forall (W : Type) (E : Env W),
    (forall name dir count po (st : state W),
        exists evs,
          events (snd (download_profile_posts name dir count po st))
          = events st ++ evs
          /\ (downloads_returned evs = true ->
              loader (snd (download_profile_posts name dir count po st))
              = loader st))
    /\ (forall sc dir (st : state W),
           exists evs,
             events (snd (download_post_by_shortcode sc dir st))
             = events st ++ evs
             /\ (downloads_returned evs = true ->
                 loader (snd (download_post_by_shortcode sc dir st))
                 = loader st)).
Proof.
  intros W E. split.
  - intros name dir count po st.
    destruct (More.download_profile_posts_trace name dir count po st)
      as (evs & Hev & _ & Hl).
    now exists evs.
  - intros sc dir st. rewrite ByShortcode.download_post_by_shortcode_eq.
    destruct (Post_from_shortcode (world st) sc) as [w1 [e|post]].
    + eexists. cbn [snd fetch_failed events loader]. split; reflexivity.
    + destruct (download_post w1 (with_filename_pattern (loader st) sc)
                              post sc) as [w2 [e|]];
        eexists; cbn [snd post_done events loader];
        (split; [reflexivity|]); [discriminate | reflexivity].
Qed.

(** A run in which every download returns. *)
Lemma X10_witness :
  loader (snd (download_profile_posts "alice" "downloads" 2 false
                                      (initial Demo.w1)))
  = loader (initial Demo.w1).
Proof.
  destruct (@X10_loader_kept_when_downloads_return Demo.world Demo.env)
    as [Hprofile _].
  destruct (Hprofile "alice" "downloads" 2%Z false (initial Demo.w1))
    as (evs & Hev & Hl).
  apply Hl. cbn in Hev. subst evs. reflexivity.
Defined.


(** X12.  The shortcodes read from a file are its non-blank lines,
    stripped: every shortcode is non-empty and has no surrounding white
    space, a line of white space only (an empty line included) contributes
    nothing, and any other line contributes its stripped text, at its
    place. *)
Theorem X12_shortcodes_are_stripped_nonblank_lines :
  (forall lines,
      Forall (fun sc => sc <> EmptyString /\ Str.strip sc = sc)
             (shortcodes_of_lines lines))
  /\ (forall before blank after,
         Str.forallb Str.isspace blank = true ->
         shortcodes_of_lines (before ++ blank :: after)
         = shortcodes_of_lines (before ++ after))
  /\ (forall before line after,
         Str.forallb Str.isspace line = false ->
         shortcodes_of_lines (before ++ line :: after)
         = shortcodes_of_lines before ++ Str.strip line
             :: shortcodes_of_lines after).
Proof.
  split; [|split].
  - intros lines. unfold shortcodes_of_lines.
    rewrite Forall_forall. intros sc Hin.
    apply in_map_iff in Hin as (line & <- & Hin).
    apply filter_In in Hin as [_ Ht]. split.
    + now destruct (Str.strip line).
    + apply StripFacts.strip_strip.
  - intros before blank after Hb.
    change (blank :: after) with ([blank] ++ after).
    now rewrite !FileFacts.shortcodes_of_lines_app,
      (FileFacts.shortcodes_of_blank blank Hb).
  - intros before line after Hl.
    change (line :: after) with ([line] ++ after).
    now rewrite !FileFacts.shortcodes_of_lines_app,
      (FileFacts.shortcodes_of_line line Hl).
Qed.

(** A blank line between two shortcodes changes nothing. *)
Lemma X12_witness :
  shortcodes_of_lines
    ([("A1" ++ Str.newline)%string]
       ++ ("  " ++ Str.newline)%string :: ["B2"%string])
  = shortcodes_of_lines ([("A1" ++ Str.newline)%string] ++ ["B2"%string]).
Proof.
  destruct X12_shortcodes_are_stripped_nonblank_lines as (_ & Hblank & _).
  apply Hblank. reflexivity.
Defined.

(** X13.  A shortcode file that exists and cannot be read is not handled:
    when reading it raises an [Exception], the exception reaches the top of
    the script, which ends with status 1 having printed no line of its own
    and fetched nothing.  (A missing file, in contrast, is reported and
    ends with status 0.) *)
Theorem X13_unreadable_file_is_uncaught :
  forall (W : Type) (E : Env W) args (w : W) (st1 : state W) w' e,
    given (shortcodes_file args) = true ->
    create_instance (username args) (initial w) = (Normal tt, st1) ->
    os_path_exists (world st1) (value (shortcodes_file args)) = true ->
    read_lines (world st1) (value (shortcodes_file args)) = (w', inl e) ->
    is_Exception e = true ->
    fst (script args w) = 1%Z
    /\ stdout (snd (script args w)) = stdout st1
    /\ events (snd (script args w)) = [].
Proof.
  intros W E args w st1 w' e Hfile Hsession Hexists Hread He.
  assert (Hrun : script args w
                 = (1%Z,
                    {| world := w'; loader := loader st1;
                       stdout := stdout st1; stderr := stderr st1;
                       events := [] |})).
  { unfold script.
    rewrite (Toplevel.main_file_mode args (initial w) st1 Hfile Hsession).
    unfold download_shortcodes_from_file.
    unfold bind at 1. unfold path_exists at 1. rewrite Hexists. cbn [negb].
    unfold bind at 1. unfold open_lines at 1. rewrite Hread.
    rewrite (More.session_events _ w st1 Hsession).
    destruct e; try discriminate; reflexivity. }
  rewrite Hrun. repeat split.
Qed.

(** X14.  A single-post run ends with status 0 whether or not the post
    could be downloaded: in URL mode with a URL that resolves to [sc], and in
    shortcode mode with shortcode [sc], the script fetches [sc], once, and
    nothing else, and its exit status is 0. *)
Theorem X14_single_post_run_exits_zero :
  forall (W : Type) (E : Env W) args (w : W) (st1 : state W) sc,
    given (shortcodes_file args) = false ->
    create_instance (username args) (initial w) = (Normal tt, st1) ->
    (given (post_url args) = true
     /\ extract_shortcode_from_url (value (post_url args)) = Some sc)
    \/ (given (post_url args) = false
        /\ given (arg_shortcode args) = true
        /\ value (arg_shortcode args) = sc) ->
    fst (script args w) = 0%Z
    /\ fetches (events (snd (script args w))) = [sc].
Proof.
  intros W E args w st1 sc Hfile Hsession Hmode.
  assert (Hmain : main args (initial w)
                  = bind (download_post_by_shortcode sc (directory args))
                         (fun _ => ret tt) st1).
  { destruct Hmode as [[Hurl Hsome] | (Hurl & Hsc & <-)].
    - now apply More.main_url_mode.
    - now apply More.main_shortcode_mode. }
  unfold script. rewrite Hmain.
  destruct (More.single_post_status sc (directory args) st1)
    as (evs & Hev & Hf & Hend).
  rewrite (More.session_events _ w st1 Hsession) in Hev.
  destruct (bind (download_post_by_shortcode sc (directory args))
                 (fun _ => ret tt) st1) as [o st2].
  cbn [fst snd app] in *. subst evs.
  destruct Hend as [-> | ->]; cbn [fst snd events]; auto.
Qed.

(** The URL of a post whose download fails. *)
Lemma X14_witness :
  fst (script (Demo.url_args "https://www.instagram.com/p/BAD/") Demo.w0)
  = 0%Z
  /\ fetches (events (snd (script
                             (Demo.url_args "https://www.instagram.com/p/BAD/")
                             Demo.w0))) = ["BAD"].
Proof.
  apply (@X14_single_post_run_exits_zero Demo.world Demo.env
           (Demo.url_args "https://www.instagram.com/p/BAD/") Demo.w0
           (initial Demo.w0) "BAD"); try reflexivity.
  left. split; reflexivity.
Defined.

(** X15.  A run over a readable shortcode file ends with status 0 whatever
    fails in it, and what it fetches are the first shortcodes of the file,
    in the file's order. *)
Theorem X15_readable_file_run_exits_zero :
  forall (W : Type) (E : Env W) args (w : W) (st1 : state W) w' lines,
    given (shortcodes_file args) = true ->
    create_instance (username args) (initial w) = (Normal tt, st1) ->
    os_path_exists (world st1) (value (shortcodes_file args)) = true ->
    read_lines (world st1) (value (shortcodes_file args)) = (w', inr lines) ->
    fst (script args w) = 0%Z
    /\ exists rest,
        shortcodes_of_lines lines
        = fetches (events (snd (script args w))) ++ rest.
Proof.
  intros W E args w st1 w' lines Hfile Hsession Hexists Hread.
  unfold script.
  rewrite (Toplevel.main_file_mode args (initial w) st1 Hfile Hsession).
  destruct (Toplevel.download_shortcodes_from_file_reads
              _ st1 w' lines Hexists Hread) as (evs & Hev & Hend).
  rewrite (More.session_events _ w st1 Hsession) in Hev.
  destruct (download_shortcodes_from_file (value (shortcodes_file args)) st1)
    as [o st2].
  cbn [fst snd app] in *. subst evs.
  destruct Hend as [[-> Hf] | (e & rest & -> & He & Hf)].
  - cbn [fst snd]. split; [reflexivity|]. exists []. now rewrite app_nil_r.
  - apply More.not_Exception in He as ->. cbn [fst snd events].
    split; [reflexivity|]. now exists rest.
Qed.

(** The file of the demonstration world. *)
Lemma X15_witness :
  fst (script (Demo.file_args "codes.txt") Demo.w0) = 0%Z
  /\ exists rest,
      shortcodes_of_lines (Demo.file_lines Demo.w0)
      = fetches (events (snd (script (Demo.file_args "codes.txt") Demo.w0)))
          ++ rest.
Proof.
  apply (@X15_readable_file_run_exits_zero Demo.world Demo.env
           (Demo.file_args "codes.txt") Demo.w0 (initial Demo.w0) Demo.w0
           (Demo.file_lines Demo.w0)); reflexivity.
Defined.

(** X16.  A profile run ends with status 0 once the profile is found and
    its listing can be iterated, however many of its downloads fail. *)
Theorem X16_profile_run_exits_zero :
  forall (W : Type) (E : Env W) args (w : W) (st1 : state W) w' profile,
    given (shortcodes_file args) = false ->
    given (post_url args) = false ->
    given (arg_shortcode args) = false ->
    given (target args) = true ->
    create_instance (username args) (initial w) = (Normal tt, st1) ->
    Profile_from_username (world st1) (value (target args))
    = (w', inr profile) ->
    listing_fault profile = None ->
    fst (script args w) = 0%Z.
Proof.
  intros W E args w st1 w' profile Hfile Hurl Hsc Ht Hsession Hp Hfault.
  unfold script.
  rewrite (More.main_profile_mode args (initial w) st1 Hfile Hurl Hsc Ht
             Hsession).
  destruct (Toplevel.download_profile_posts_returns
              (value (target args)) (directory args) (count args)
              (posts_only args) st1 w' profile Hp Hfault)
    as [Hn | (e & Hr & He)];
    destruct (download_profile_posts (value (target args)) (directory args)
                (count args) (posts_only args) st1) as [o st2];
    cbn [fst] in *; subst o; [reflexivity|].
  apply More.not_Exception in He as ->. reflexivity.
Qed.

(** The profile of the demonstration world, without a cap. *)
Lemma X16_witness :
  fst (script (Demo.profile_args 0) Demo.w0) = 0%Z.
Proof.
  apply (@X16_profile_run_exits_zero Demo.world Demo.env
           (Demo.profile_args 0) Demo.w0 (initial Demo.w0) Demo.w0
           {| listing := Demo.alice Demo.w0; listing_fault := None |});
    reflexivity.
Defined.

(** X17.  Without a mode the script stops before it touches anything: when
    no shortcode file, target, shortcode and URL is given (an empty string
    counts as not given), it ends with status 2 through [parser.error],
    and even with a user name it has asked for no password, logged in
    nowhere, fetched nothing and printed nothing on the standard output. *)
Theorem X17_no_mode_is_a_usage_error :
  forall (W : Type) (E : Env W) args (w : W),
    given (shortcodes_file args) = false ->
    given (target args) = false ->
    given (arg_shortcode args) = false ->
    given (post_url args) = false ->
    fst (script args w) = 2%Z
    /\ world (snd (script args w)) = w
    /\ stdout (snd (script args w)) = []
    /\ events (snd (script args w)) = [].
Proof.
  intros W E args w Hfile Ht Hsc Hurl.
  unfold script, main. rewrite Hfile, Ht, Hsc, Hurl.
  repeat split.
Qed.

(** A user name and an empty target. *)
Lemma X17_witness :
  fst (script {| username := Some "me"; target := Some ""; count := 5;
                 directory := "out"; posts_only := true;
                 arg_shortcode := None; post_url := None;
                 shortcodes_file := None |} Demo.w0) = 2%Z
  /\ world (snd (script {| username := Some "me"; target := Some "";
                           count := 5; directory := "out";
                           posts_only := true; arg_shortcode := None;
                           post_url := None; shortcodes_file := None |}
                        Demo.w0)) = Demo.w0
  /\ stdout (snd (script {| username := Some "me"; target := Some "";
                            count := 5; directory := "out";
                            posts_only := true; arg_shortcode := None;
                            post_url := None; shortcodes_file := None |}
                         Demo.w0)) = []
  /\ events (snd (script {| username := Some "me"; target := Some "";
                            count := 5; directory := "out";
                            posts_only := true; arg_shortcode := None;
                            post_url := None; shortcodes_file := None |}
                         Demo.w0)) = [].
Proof.
  apply (@X17_no_mode_is_a_usage_error Demo.world Demo.env
           {| username := Some "me"; target := Some ""; count := 5;
              directory := "out"; posts_only := true; arg_shortcode := None;
              post_url := None; shortcodes_file := None |} Demo.w0);
    reflexivity.
Defined.

(** X18.  Precedence of the modes: a shortcode file wins over a URL, which
    wins over a shortcode, which wins over a target.  Two command lines with
    the same user name run alike when they give the same file; or no file
    and the same URL; or no file, no URL and the same shortcode, whatever
    their other arguments are. *)
Theorem X18_mode_precedence :
  forall (W : Type) (E : Env W) a1 a2 (w : W),
    username a1 = username a2 ->
    (given (shortcodes_file a1) = true
     /\ shortcodes_file a1 = shortcodes_file a2)
    \/ (given (shortcodes_file a1) = false
        /\ given (shortcodes_file a2) = false
        /\ ((given (post_url a1) = true /\ post_url a1 = post_url a2)
            \/ (given (post_url a1) = false
                /\ given (post_url a2) = false
                /\ given (arg_shortcode a1) = true
                /\ arg_shortcode a1 = arg_shortcode a2))) ->
    script a1 w = script a2 w.
Proof.
  intros W E a1 a2 w Hu Hmode.
  assert (Hmain : main a1 (initial w) = main a2 (initial w)).
  { unfold main. rewrite <- Hu.
    destruct Hmode as [[Hf Hfe] | (Hf1 & Hf2 & Hrest)].
    - rewrite <- Hfe, Hf. reflexivity.
    - rewrite Hf1, Hf2.
      destruct Hrest as [[Hp Hpe] | (Hp1 & Hp2 & Hs & Hse)].
      + rewrite <- Hpe, Hp, !orb_true_r. cbn [negb].
        destruct (extract_shortcode_from_url (value (post_url a1)));
          reflexivity.
      + rewrite Hp1, Hp2, <- Hse, Hs, !orb_true_r. reflexivity. }
  unfold script. now rewrite Hmain.
Qed.

(** A file given together with a URL, a shortcode and a target. *)
Lemma X18_witness :
  script {| username := None; target := Some "alice"; count := 1;
            directory := "out"; posts_only := true;
            arg_shortcode := Some "GOOD";
            post_url := Some "https://www.instagram.com/p/NEXT/";
            shortcodes_file := Some "codes.txt" |} Demo.w0
  = script (Demo.file_args "codes.txt") Demo.w0.
Proof.
  apply (@X18_mode_precedence Demo.world Demo.env
           {| username := None; target := Some "alice"; count := 1;
              directory := "out"; posts_only := true;
              arg_shortcode := Some "GOOD";
              post_url := Some "https://www.instagram.com/p/NEXT/";
              shortcodes_file := Some "codes.txt" |}
           (Demo.file_args "codes.txt") Demo.w0); [reflexivity|].
  left. split; reflexivity.
Defined.

(** X19.  A login that fails is fatal: when a user name is given and
    [login] raises an [Exception], the script ends with status 1 before it
    fetches anything, having printed [Error: Invalid credentials] for
    [BadCredentialsException], [Error: Connection error during login] for
    [ConnectionException], and nothing for any other exception, which is
    not caught. *)
Theorem X19_login_failure_is_fatal :
  forall (W : Type) (E : Env W) args (w w1 w2 : W) pw e,
    (given (shortcodes_file args) || given (target args)
     || given (arg_shortcode args) || given (post_url args)) = true ->
    given (username args) = true ->
    getpass w ("Enter password for " ++ value (username args) ++ ": ")%string
    = (w1, pw) ->
    login w1 (value (username args)) pw = (w2, Some e) ->
    is_Exception e = true ->
    fst (script args w) = 1%Z
    /\ stdout (snd (script args w))
       = match e with
         | BadCredentialsException _ => ["Error: Invalid credentials"]
         | ConnectionException _ => ["Error: Connection error during login"]
         | _ => []
         end
    /\ events (snd (script args w)) = [].
Proof.
  intros W E args w w1 w2 pw e Hmode Hu Hpw Hlogin He.
  pose proof (More.create_instance_login_fails (username args) (initial w)
                w1 pw w2 e Hu Hpw Hlogin) as Hsession.
  unfold script.
  destruct e; try discriminate;
    rewrite (More.main_session_fails args (initial w) _ _ Hmode Hsession)
      by (intros; discriminate);
    repeat split.
Qed.

Section FlakyWitnesses.
#[local] Existing Instance Flaky.env.

(** A path that is a directory. *)
Lemma X13_witness :
  fst (script (Demo.file_args "codes.txt")
         (Flaky.with_file_fault (OtherException "Is a directory"))) = 1%Z
  /\ stdout (snd (script (Demo.file_args "codes.txt")
                    (Flaky.with_file_fault (OtherException "Is a directory"))))
     = []
  /\ events (snd (script (Demo.file_args "codes.txt")
                    (Flaky.with_file_fault (OtherException "Is a directory"))))
     = [].
Proof.
  apply (@X13_unreadable_file_is_uncaught Flaky.world Flaky.env
           (Demo.file_args "codes.txt")
           (Flaky.with_file_fault (OtherException "Is a directory"))
           (initial (Flaky.with_file_fault (OtherException "Is a directory")))
           (Flaky.with_file_fault (OtherException "Is a directory"))
           (OtherException "Is a directory"));
    reflexivity.
Defined.

(** A wrong password. *)
Lemma X19_witness :
  fst (script {| username := Some "me"; target := Some "alice"; count := 0;
                 directory := "downloads"; posts_only := false;
                 arg_shortcode := None; post_url := None;
                 shortcodes_file := None |}
         (Flaky.with_login_fault (BadCredentialsException "wrong password")))
  = 1%Z
  /\ stdout (snd (script {| username := Some "me"; target := Some "alice";
                            count := 0; directory := "downloads";
                            posts_only := false; arg_shortcode := None;
                            post_url := None; shortcodes_file := None |}
                    (Flaky.with_login_fault
                       (BadCredentialsException "wrong password"))))
     = ["Error: Invalid credentials"]
  /\ events (snd (script {| username := Some "me"; target := Some "alice";
                            count := 0; directory := "downloads";
                            posts_only := false; arg_shortcode := None;
                            post_url := None; shortcodes_file := None |}
                    (Flaky.with_login_fault
                       (BadCredentialsException "wrong password"))))
     = [].
Proof.
  apply (@X19_login_failure_is_fatal Flaky.world Flaky.env
           {| username := Some "me"; target := Some "alice"; count := 0;
              directory := "downloads"; posts_only := false;
              arg_shortcode := None; post_url := None;
              shortcodes_file := None |}
           (Flaky.with_login_fault (BadCredentialsException "wrong password"))
           (Flaky.with_login_fault (BadCredentialsException "wrong password"))
           (Flaky.with_login_fault (BadCredentialsException "wrong password"))
           "secret" (BadCredentialsException "wrong password"));
    reflexivity.
Defined.

End FlakyWitnesses.
